(** * PhilBackend: order / payment reconciliation core of [server.js]

    A shallow embedding of the Express handlers of [src/server.js] and the
    properties of the order-code allocator, the customer get-or-create, the
    ownership check and the two payment reconciliation paths.

    Modelling conventions.
    - JavaScript strings are [string].  [toLowerCase] and [toUpperCase]
      act on the letters A-Z / a-z and leave other bytes alone, which is
      what JavaScript does on strings of ASCII characters ([JS.isAscii]);
      the theorems whose conclusion depends on the case mapping carry that
      hypothesis.
    - JavaScript Numbers that hold integers ([Date.now()], dates) are [Z];
      amounts are exact rationals [Q] (no property below depends on
      rounding).
    - A request field that may be absent ([undefined]) is an [option].
      Request fields carry the type the handler expects of them (strings
      where the code treats them as strings).
    - The MongoDB collections are lists of documents in insertion order.
      [findOne] returns the first matching document.
    - Everything a handler cannot decide by itself (the clock, [Math.random],
      fresh ObjectIds, database outages, the payment gateway, environment
      variables) is read from a [World].
    - The webhook handler calls [crypto.createHmac], and server.js does not
      require [crypto]: the handler is defined for any binding of that
      identifier, and [serverCrypto] is the binding of server.js (none).
    - A stored [_id] is the canonical string of an ObjectId, 24
      hexadecimal digits in lower case.  [findById] casts its argument
      first ([castObjectId]): a string that is no ObjectId makes the query
      reject, and the case of the hexadecimal digits is ignored.
    - Each handler is a computation in a small state-and-exception monad; its
      [try { ... } catch] is [tryCatch]. *)

From Stdlib Require Import ZArith QArith String Ascii List Bool Lia.
From Stdlib Require Import DecimalString Permutation.
Import ListNotations.

Open Scope string_scope.
Open Scope Z_scope.

(* ------------------------------------------------------------------ *)
(** ** JavaScript string primitives *)

Module JS.

Definition isUpper (c : ascii) : bool :=
  let n := nat_of_ascii c in (65 <=? n)%nat && (n <=? 90)%nat.

Definition isLower (c : ascii) : bool :=
  let n := nat_of_ascii c in (97 <=? n)%nat && (n <=? 122)%nat.

Definition lowerChar (c : ascii) : ascii :=
  if isUpper c then ascii_of_nat (nat_of_ascii c + 32) else c.

Definition upperChar (c : ascii) : ascii :=
  if isLower c then ascii_of_nat (nat_of_ascii c - 32) else c.

Fixpoint mapChars (f : ascii -> ascii) (s : string) : string :=
  match s with
  | EmptyString => EmptyString
  | String c r => String (f c) (mapChars f r)
  end.

(** [s.toLowerCase()] and [s.toUpperCase()] of a string of ASCII
    characters; JavaScript also maps the letters outside A-Z / a-z, which
    are left alone here. *)
Definition toLowerCase : string -> string := mapChars lowerChar.
Definition toUpperCase : string -> string := mapChars upperChar.

(** [s.substring(a, b)]: the characters at the indices from [min a b]
    up to, not including, [max a b], clamped to the length of [s]. *)
Definition substring (a b : nat) (s : string) : string :=
  String.substring (Nat.min a b) (Nat.max a b - Nat.min a b) s.

(** [s.slice(-k)]: the last [k] characters, the whole string when it is
    shorter. *)
Definition sliceLast (k : nat) (s : string) : string :=
  String.substring (String.length s - k) k s.

(** [n.toString()] of an integer Number. *)
Definition toString (n : Z) : string :=
  NilZero.string_of_int (Z.to_int n).

(** Truthiness of an optional string: [undefined] and [""] are falsy. *)
Definition truthy (s : option string) : bool :=
  match s with
  | Some (String _ _) => true
  | _ => false
  end.

(** [a === b] on optional strings. *)
Definition strictEq (a b : option string) : bool :=
  match a, b with
  | Some x, Some y => String.eqb x y
  | None, None => true
  | _, _ => false
  end.

(** [s] holds ASCII characters only (code units below 128). *)
Definition isAscii (s : string) : bool :=
  forallb (fun c => (nat_of_ascii c <? 128)%nat) (list_ascii_of_string s).

End JS.

(* ------------------------------------------------------------------ *)
(** ** Data model: [customerSchema] and [orderSchema] *)

Definition ObjectId := string.
Definition Date := Z.

Record Customer := mkCustomer {
  cust_id : ObjectId;
  cust_email : string;
  cust_firstName : string;
  cust_lastName : string;
  cust_phone : string;
  cust_createdAt : Date
}.

Inductive OrderType := room | food.

Inductive OrderStatus := pending | paid | confirmed | cancelled.

Inductive PaymentStatus := pay_pending | pay_success | pay_failed.

Record Item := mkItem {
  item_id : option string;
  item_name : option string;
  item_price : option Q;
  item_quantity : Q;
  item_checkIn : option Date;
  item_checkOut : option Date;
  item_category : option string
}.

Record Order := mkOrder {
  ord_id : ObjectId;
  ord_customer : ObjectId;
  ord_orderCode : string;
  ord_type : OrderType;
  ord_items : list Item;
  ord_totalAmount : Q;
  ord_status : OrderStatus;
  ord_paymentReference : option string;
  ord_paymentStatus : PaymentStatus;
  ord_createdAt : Date;
  ord_updatedAt : Date
}.

(** The two collections. *)
Record Store := mkStore {
  customers : list Customer;
  orders : list Order
}.

(** Field updates of a loaded order document. *)
Definition set_paymentReference (r : string) (o : Order) : Order :=
  mkOrder (ord_id o) (ord_customer o) (ord_orderCode o) (ord_type o)
          (ord_items o) (ord_totalAmount o) (ord_status o) (Some r)
          (ord_paymentStatus o) (ord_createdAt o) (ord_updatedAt o).

Definition set_paymentStatus (p : PaymentStatus) (o : Order) : Order :=
  mkOrder (ord_id o) (ord_customer o) (ord_orderCode o) (ord_type o)
          (ord_items o) (ord_totalAmount o) (ord_status o)
          (ord_paymentReference o) p (ord_createdAt o) (ord_updatedAt o).

Definition set_status (s : OrderStatus) (o : Order) : Order :=
  mkOrder (ord_id o) (ord_customer o) (ord_orderCode o) (ord_type o)
          (ord_items o) (ord_totalAmount o) s (ord_paymentReference o)
          (ord_paymentStatus o) (ord_createdAt o) (ord_updatedAt o).

Definition set_updatedAt (d : Date) (o : Order) : Order :=
  mkOrder (ord_id o) (ord_customer o) (ord_orderCode o) (ord_type o)
          (ord_items o) (ord_totalAmount o) (ord_status o)
          (ord_paymentReference o) (ord_paymentStatus o) (ord_createdAt o) d.

(* ------------------------------------------------------------------ *)
(** ** Requests, gateway messages and responses *)

(** [customerData] / the body of POST /api/customers. *)
Record CustomerData := mkCustomerData {
  cd_email : option string;
  cd_firstName : option string;
  cd_lastName : option string;
  cd_phone : option string
}.

(** Body of POST /api/orders. *)
Record OrderRequest := mkOrderRequest {
  rq_customerData : option CustomerData;
  rq_items : list Item;
  rq_type : option string;
  rq_totalAmount : option Q
}.

(** Body of the Paystack webhook: [{ event, data: { reference } }]. *)
Record WebhookData := mkWebhookData {
  wd_reference : option string
}.

Record WebhookEvent := mkWebhookEvent {
  ev_event : option string;
  ev_data : option WebhookData
}.

(** What POST /api/payments/initialize sends to the gateway. *)
Record InitRequest := mkInitRequest {
  ir_email : string;
  ir_amount : Q;
  ir_reference : string;
  ir_callback_url : string;
  ir_orderId : ObjectId;
  ir_customerName : string;
  ir_orderType : OrderType
}.

(** [response.data.data] of the gateway's initialize call. *)
Record InitData := mkInitData {
  id_authorization_url : option string;
  id_access_code : option string
}.

(** [response.data.data] of the gateway's verify call. *)
Record PaymentData := mkPaymentData {
  pd_status : option string;
  pd_amount : option Q;
  pd_reference : option string
}.

(** An order after [.populate('customer')]: the reference is replaced by
    the customer document, or by [null] when it does not resolve. *)
Definition PopulatedOrder := (Order * option Customer)%type.

Inductive Exn :=
| TypeError
| ValidationError
| DuplicateKeyError
| StoreError
| AxiosError
| CastError.

Inductive Body :=
| BCustomer (customer : Customer)
| BOrderCreated (order : Order) (orderCode : string)
| BInitialized (authorization_url access_code : option string)
               (reference : string)
| BPayment (status : option string) (amount : option Q)
           (reference : option string)
| BOrders (orders : list PopulatedOrder) (customer : Customer)
| BOrder (order : PopulatedOrder)
| BOrderVerified (order : PopulatedOrder)
| BError (error : string)
| BException (error : Exn)
| BFailure (error : string) (details : Exn)
| BText (text : string).

Record Response := mkResponse {
  status : nat;
  body : Body
}.

(* ------------------------------------------------------------------ *)
(** ** The world of a request and the handler monad *)

(** The surroundings of one request.  [clock k] is the value of the [k]-th
    reading of the clock ([Date.now()], [new Date()]), [random36 k] the
    string [Math.random().toString(36)] of the [k]-th call of
    [Math.random], [objectId k] the [k]-th generated ObjectId and
    [dbRejects k] tells whether the [k]-th database operation rejects.
    The gateway calls answer [None] when axios rejects (network failure or
    a non-2xx status) and [Some d] when it resolves, [d] being
    [response.data.data] ([None] when the payload has no such member). *)
Record World := mkWorld {
  clock : nat -> Z;
  random36 : nat -> string;
  objectId : nat -> ObjectId;
  dbRejects : nat -> bool;
  PAYSTACK_SECRET_KEY : option string;
  FRONTEND_URL : option string;
  paystackInitialize : InitRequest -> option (option InitData);
  paystackVerify : option string -> option (option PaymentData)
}.

(** State threaded through a handler: the store and how many values of
    each stream of the world have been consumed. *)
Record St := mkSt {
  db : Store;
  kClock : nat;
  kRandom : nat;
  kId : nat;
  kDb : nat
}.

Definition initSt (s : Store) : St := mkSt s 0 0 0 0.

(** Outcome of a computation: a value, a thrown exception, or [Spin] when
    the fuel of a loop ran out (not an outcome of the program). *)
Inductive Res (A : Type) : Type :=
| Ok (a : A)
| Throw (e : Exn)
| Spin.

Arguments Ok {A} a.
Arguments Throw {A} e.
Arguments Spin {A}.

Definition M (A : Type) : Type := World -> St -> Res A * St.

Definition ret {A} (a : A) : M A := fun _ st => (Ok a, st).

Definition throw {A} (e : Exn) : M A := fun _ st => (Throw e, st).

Definition spin {A} : M A := fun _ st => (Spin, st).

(** Reading [process.env] and calling the gateway. *)
Definition world : M World := fun w st => (Ok w, st).

Definition bind {A B} (m : M A) (k : A -> M B) : M B :=
  fun w st =>
    match m w st with
    | (Ok a, st') => k a w st'
    | (Throw e, st') => (Throw e, st')
    | (Spin, st') => (Spin, st')
    end.

Declare Scope handler_scope.
Delimit Scope handler_scope with handler.
Notation "x <- m ;; k" := (bind m (fun x => k))
  (at level 61, m at next level, right associativity) : handler_scope.
Notation "m ;;; k" := (bind m (fun _ => k))
  (at level 61, right associativity) : handler_scope.
Open Scope handler_scope.

(** [try { m } catch (error) { handler error }]; [None] when [m] spins. *)
Definition tryCatch (m : M Response) (handler : Exn -> Response)
  (w : World) (s : Store) : option Response * Store :=
  match m w (initSt s) with
  | (Ok r, st) => (Some r, db st)
  | (Throw e, st) => (Some (handler e), db st)
  | (Spin, st) => (None, db st)
  end.

(* ------------------------------------------------------------------ *)
(** ** Effects: clock, randomness, identifiers, database *)

(** [Date.now()] / [new Date()]. *)
Definition Date_now : M Z :=
  fun w st =>
    (Ok (clock w (kClock st)),
     mkSt (db st) (S (kClock st)) (kRandom st) (kId st) (kDb st)).

(** [Math.random().toString(36)]. *)
Definition Math_random_toString36 : M string :=
  fun w st =>
    (Ok (random36 w (kRandom st)),
     mkSt (db st) (kClock st) (S (kRandom st)) (kId st) (kDb st)).

(** The [_id] of a freshly constructed document. *)
Definition newObjectId : M ObjectId :=
  fun w st =>
    (Ok (objectId w (kId st)),
     mkSt (db st) (kClock st) (kRandom st) (S (kId st)) (kDb st)).

(** A read of the store: rejects when the database is out, otherwise
    answers [f] of the current store. *)
Definition dbRead {A} (f : Store -> A) : M A :=
  fun w st =>
    let st' := mkSt (db st) (kClock st) (kRandom st) (kId st) (S (kDb st)) in
    if dbRejects w (kDb st) then (Throw StoreError, st')
    else (Ok (f (db st)), st').

(** A write of the store: rejects when the database is out or when [f]
    refuses the write, otherwise installs the new store. *)
Definition dbWrite (f : Store -> Exn + Store) : M unit :=
  fun w st =>
    let k := S (kDb st) in
    if dbRejects w (kDb st)
    then (Throw StoreError, mkSt (db st) (kClock st) (kRandom st) (kId st) k)
    else match f (db st) with
         | inl e => (Throw e, mkSt (db st) (kClock st) (kRandom st) (kId st) k)
         | inr s' => (Ok tt, mkSt s' (kClock st) (kRandom st) (kId st) k)
         end.

(** [Customer.findOne({ email })]: exact match on the stored string. *)
Definition findByEmail (email : option string) (s : Store) : option Customer :=
  find (fun c => JS.strictEq (Some (cust_email c)) email) (customers s).

Definition Customer_findOne_email (email : option string) : M (option Customer) :=
  dbRead (findByEmail email).

(** A document with its [customer] path populated. *)
Definition lookupCustomer (s : Store) (i : ObjectId) : option Customer :=
  find (fun c => String.eqb (cust_id c) i) (customers s).

Definition populate (s : Store) (o : Order) : PopulatedOrder :=
  (o, lookupCustomer s (ord_customer o)).

(** [Order.findOne({ orderCode })]. *)
Definition findByOrderCode (orderCode : option string) (s : Store) : option Order :=
  find (fun o => JS.strictEq (Some (ord_orderCode o)) orderCode) (orders s).

Definition Order_findOne_orderCode (orderCode : option string) : M (option Order) :=
  dbRead (findByOrderCode orderCode).

(** [Order.findOne({ orderCode }).populate('customer')]. *)
Definition Order_findOne_orderCode_populate (orderCode : option string)
  : M (option PopulatedOrder) :=
  dbRead (fun s => option_map (populate s) (findByOrderCode orderCode s)).

(** [Order.findOne({ paymentReference: reference })]: an absent reference
    in the filter matches the orders whose payment reference is unset. *)
Definition findByPaymentReference (reference : option string) (s : Store)
  : option Order :=
  find (fun o => JS.strictEq (ord_paymentReference o) reference) (orders s).

Definition Order_findOne_paymentReference (reference : option string)
  : M (option Order) :=
  dbRead (findByPaymentReference reference).

(** The cast Mongoose applies to the argument of [findById]: a string of
    24 hexadecimal digits, in either case, denotes the ObjectId whose
    canonical string has the same digits in lower case; another string is
    no ObjectId.  (Releases of the bson library before 5 also read a
    string of 12 bytes as a raw ObjectId; the statements about malformed
    ids leave that length out.) *)
Definition isHexDigit (c : ascii) : bool :=
  let n := nat_of_ascii c in
  ((48 <=? n)%nat && (n <=? 57)%nat) || ((97 <=? n)%nat && (n <=? 102)%nat)
  || ((65 <=? n)%nat && (n <=? 70)%nat).

Definition castObjectId (x : string) : option ObjectId :=
  if (String.length x =? 24)%nat && forallb isHexDigit (list_ascii_of_string x)
  then Some (JS.toLowerCase x)
  else None.

(** The document [Order.findById(orderId)] resolves with, when it
    resolves: [findById(undefined)] is [findOne({ _id: null })]. *)
Definition findById (orderId : option ObjectId) (s : Store) : option Order :=
  match orderId with
  | None => None
  | Some x =>
      match castObjectId x with
      | None => None
      | Some i => find (fun o => String.eqb (ord_id o) i) (orders s)
      end
  end.

(** [Order.findById(orderId).populate('customer')]: the query rejects with
    a CastError, before the database is asked, when [orderId] is no
    ObjectId. *)
Definition castFails (orderId : option ObjectId) : bool :=
  match orderId with
  | None => false
  | Some x => match castObjectId x with
              | None => true
              | Some _ => false
              end
  end.

Definition Order_findById_populate (orderId : option ObjectId)
  : M (option PopulatedOrder) :=
  (if castFails orderId then throw CastError else ret tt) ;;;
  dbRead (fun s => option_map (populate s) (findById orderId s)).

(** [.sort({ createdAt: -1 })]. *)
Fixpoint insertByCreatedAtDesc (p : PopulatedOrder) (l : list PopulatedOrder)
  : list PopulatedOrder :=
  match l with
  | [] => [p]
  | q :: r =>
      if ord_createdAt (fst q) <=? ord_createdAt (fst p)
      then p :: l
      else q :: insertByCreatedAtDesc p r
  end.

Definition sortByCreatedAtDesc (l : list PopulatedOrder) : list PopulatedOrder :=
  fold_right insertByCreatedAtDesc [] l.

(** [Order.find({ customer: id }).populate('customer').sort({ createdAt: -1 })]. *)
Definition ordersOfCustomer (i : ObjectId) (s : Store) : list Order :=
  filter (fun o => String.eqb (ord_customer o) i) (orders s).

Definition Order_find_customer (i : ObjectId) : M (list PopulatedOrder) :=
  dbRead (fun s => sortByCreatedAtDesc (map (populate s) (ordersOfCustomer i s))).

(** A [required] string path: present and not empty. *)
Definition required (s : option string) : option string :=
  match s with
  | Some (String c r) => Some (String c r)
  | _ => None
  end.

(** [new Customer(data)]: a fresh [_id], [createdAt] defaulting to
    [Date.now]; the document is validated when it is saved. *)
Record NewCustomer := mkNewCustomer {
  nc_id : ObjectId;
  nc_data : CustomerData;
  nc_createdAt : Date
}.

Definition new_Customer (data : CustomerData) : M NewCustomer :=
  i <- newObjectId ;;
  t <- Date_now ;;
  ret (mkNewCustomer i data t).

Definition validateCustomer (c : NewCustomer) : option Customer :=
  match required (cd_email (nc_data c)), required (cd_firstName (nc_data c)),
        required (cd_lastName (nc_data c)), required (cd_phone (nc_data c)) with
  | Some e, Some f, Some l, Some p =>
      Some (mkCustomer (nc_id c) e f l p (nc_createdAt c))
  | _, _, _, _ => None
  end.

(** [customer.save()] of a new document: validation, then the insert under
    the unique index on [email]. *)
Definition Customer_save (c : NewCustomer) : M Customer :=
  match validateCustomer c with
  | None => throw ValidationError
  | Some doc =>
      dbWrite (fun s =>
        if existsb (fun x => String.eqb (cust_email x) (cust_email doc))
                   (customers s)
        then inl DuplicateKeyError
        else inr (mkStore (customers s ++ [doc]) (orders s))) ;;;
      ret doc
  end.

(** [new Order({ customer, orderCode, type, items, totalAmount })]. *)
Record NewOrder := mkNewOrder {
  no_id : ObjectId;
  no_customer : ObjectId;
  no_orderCode : string;
  no_type : option string;
  no_items : list Item;
  no_totalAmount : option Q;
  no_createdAt : Date;
  no_updatedAt : Date
}.

Definition new_Order (customer : ObjectId) (orderCode : string)
  (type : option string) (items : list Item) (totalAmount : option Q)
  : M NewOrder :=
  i <- newObjectId ;;
  c <- Date_now ;;
  u <- Date_now ;;
  ret (mkNewOrder i customer orderCode type items totalAmount c u).

(** The [enum: ['room', 'food']] of the [type] path. *)
Definition parseOrderType (t : option string) : option OrderType :=
  match t with
  | Some s =>
      if String.eqb s "room" then Some room
      else if String.eqb s "food" then Some food
      else None
  | None => None
  end.

Definition validateOrder (o : NewOrder) : option Order :=
  match parseOrderType (no_type o), no_totalAmount o, required (Some (no_orderCode o)) with
  | Some t, Some a, Some code =>
      Some (mkOrder (no_id o) (no_customer o) code t (no_items o) a
                    pending None pay_pending (no_createdAt o) (no_updatedAt o))
  | _, _, _ => None
  end.

(** [order.save()] of a new document: validation, then the insert under
    the unique index on [orderCode]. *)
Definition Order_save_new (o : NewOrder) : M Order :=
  match validateOrder o with
  | None => throw ValidationError
  | Some doc =>
      dbWrite (fun s =>
        if existsb (fun x => String.eqb (ord_orderCode x) (ord_orderCode doc))
                   (orders s)
        then inl DuplicateKeyError
        else inr (mkStore (customers s) (orders s ++ [doc]))) ;;;
      ret doc
  end.

(** [order.save()] of a loaded and modified document: the stored document
    with the same [_id] is replaced. *)
Definition replaceOrder (o : Order) (l : list Order) : list Order :=
  map (fun x => if String.eqb (ord_id x) (ord_id o) then o else x) l.

Definition Order_save (o : Order) : M unit :=
  dbWrite (fun s => inr (mkStore (customers s) (replaceOrder o (orders s)))).

(* ------------------------------------------------------------------ *)
(** ** [generateOrderCode] and the handlers *)

Definition generateOrderCode : M string :=
  let prefix := "PH" in
  now <- Date_now ;;
  let timestamp := JS.sliceLast 6 (JS.toString now) in
  r <- Math_random_toString36 ;;
  let random := JS.toUpperCase (JS.substring 2 6 r) in
  ret (prefix ++ timestamp ++ random).

(** The customer resolution shared by POST /api/customers and
    POST /api/orders: [Customer.findOne] by the email as supplied, and a
    new saved [Customer] when there is none. *)
Definition getOrCreateCustomer (data : CustomerData) : M Customer :=
  customer <- Customer_findOne_email (cd_email data) ;;
  match customer with
  | Some c => ret c
  | None => c <- new_Customer data ;; Customer_save c
  end.

(** POST /api/customers *)
Definition post_api_customers (data : CustomerData)
  : World -> Store -> option Response * Store :=
  tryCatch
    (customer <- getOrCreateCustomer data ;;
     ret (mkResponse 201 (BCustomer customer)))
    (fun error => mkResponse 400 (BException error)).

(** The [while (!isUnique)] loop of POST /api/orders; [fuel] bounds the
    number of iterations the model unfolds, not the program. *)
Fixpoint orderCodeLoop (fuel : nat) : M string :=
  match fuel with
  | O => spin
  | S fuel' =>
      orderCode <- generateOrderCode ;;
      existingOrder <- Order_findOne_orderCode (Some orderCode) ;;
      match existingOrder with
      | None => ret orderCode
      | Some _ => orderCodeLoop fuel'
      end
  end.

(** POST /api/orders *)
Definition createOrder (fuel : nat) (rq : OrderRequest) : M Response :=
  customerData <- match rq_customerData rq with
                  | Some d => ret d
                  | None => throw TypeError
                  end ;;
  customer <- getOrCreateCustomer customerData ;;
  orderCode <- orderCodeLoop fuel ;;
  order <- new_Order (cust_id customer) orderCode (rq_type rq) (rq_items rq)
                     (rq_totalAmount rq) ;;
  order <- Order_save_new order ;;
  ret (mkResponse 201 (BOrderCreated order orderCode)).

Definition post_api_orders (fuel : nat) (rq : OrderRequest)
  : World -> Store -> option Response * Store :=
  tryCatch (createOrder fuel rq)
           (fun error => mkResponse 400 (BException error)).

(** POST /api/payments/initialize *)
Definition callbackBase (w : World) : string :=
  if JS.truthy (FRONTEND_URL w)
  then match FRONTEND_URL w with Some u => u | None => "" end
  else "http://localhost:3000".

Definition axios_post_initialize (paymentData : InitRequest)
  : M (option InitData) :=
  w <- world ;;
  match paystackInitialize w paymentData with
  | Some d => ret d
  | None => throw AxiosError
  end.

Definition initializePayment (orderId : option ObjectId) (email : option string)
  : M Response :=
  found <- Order_findById_populate orderId ;;
  match found with
  | None => ret (mkResponse 404 (BError "Order not found"))
  | Some (order, customer) =>
      payEmail <- match email, JS.truthy email with
                  | Some e, true => ret e
                  | _, _ => match customer with
                            | Some c => ret (cust_email c)
                            | None => throw TypeError
                            end
                  end ;;
      let amount := (ord_totalAmount order * 100)%Q in
      now <- Date_now ;;
      let reference := "order_" ++ ord_id order ++ "_" ++ JS.toString now in
      w <- world ;;
      let callback_url := callbackBase w ++ "/payment/callback" in
      customerName <- match customer with
                      | Some c => ret (cust_firstName c ++ " " ++ cust_lastName c)
                      | None => throw TypeError
                      end ;;
      let paymentData :=
        mkInitRequest payEmail amount reference callback_url (ord_id order)
                      customerName (ord_type order) in
      response <- axios_post_initialize paymentData ;;
      Order_save (set_paymentReference reference order) ;;;
      match response with
      | Some d =>
          ret (mkResponse 200
                 (BInitialized (id_authorization_url d) (id_access_code d)
                               reference))
      | None => throw TypeError
      end
  end.

Definition post_api_payments_initialize (orderId : option ObjectId)
  (email : option string) : World -> Store -> option Response * Store :=
  tryCatch (initializePayment orderId email)
           (fun error =>
              mkResponse 500 (BFailure "Payment initialization failed" error)).

(** The update that POST /api/payments/verify and the webhook both apply
    to the order found under a payment reference. *)
Definition markPaid (now : Date) (order : Order) : Order :=
  set_updatedAt now (set_status paid (set_paymentStatus pay_success order)).

Definition applySuccess (reference : option string) : M unit :=
  order <- Order_findOne_paymentReference reference ;;
  match order with
  | Some order =>
      now <- Date_now ;;
      Order_save (markPaid now order)
  | None => ret tt
  end.

(** POST /api/payments/verify *)
Definition axios_get_verify (reference : option string)
  : M (option PaymentData) :=
  w <- world ;;
  match paystackVerify w reference with
  | Some d => ret d
  | None => throw AxiosError
  end.

Definition verifyPayment (reference : option string) : M Response :=
  response <- axios_get_verify reference ;;
  paymentData <- match response with
                 | Some d => ret d
                 | None => throw TypeError
                 end ;;
  (if JS.strictEq (pd_status paymentData) (Some "success")
   then applySuccess reference
   else ret tt) ;;;
  ret (mkResponse 200
         (BPayment (pd_status paymentData)
                   (option_map (fun a => (a / 100)%Q) (pd_amount paymentData))
                   (pd_reference paymentData))).

Definition post_api_payments_verify (reference : option string)
  : World -> Store -> option Response * Store :=
  tryCatch (verifyPayment reference)
           (fun error =>
              mkResponse 500 (BFailure "Payment verification failed" error)).

(** GET /api/orders/customer/:email *)
Definition get_api_orders_customer (email : string)
  : World -> Store -> option Response * Store :=
  tryCatch
    (customer <- Customer_findOne_email (Some email) ;;
     match customer with
     | None =>
         ret (mkResponse 404 (BError "No orders found for this email address"))
     | Some customer =>
         orders <- Order_find_customer (cust_id customer) ;;
         ret (mkResponse 200 (BOrders orders customer))
     end)
    (fun error => mkResponse 500 (BException error)).

(** GET /api/orders/track/:orderCode *)
Definition get_api_orders_track (orderCode : string)
  : World -> Store -> option Response * Store :=
  tryCatch
    (order <- Order_findOne_orderCode_populate (Some orderCode) ;;
     match order with
     | None => ret (mkResponse 404 (BError "Order not found"))
     | Some order => ret (mkResponse 200 (BOrder order))
     end)
    (fun error => mkResponse 500 (BException error)).

(** POST /api/orders/verify *)
Definition verifyOrder (email orderCode : option string) : M Response :=
  match email, JS.truthy email with
  | Some email, true =>
      if JS.truthy orderCode then
        order <- Order_findOne_orderCode_populate orderCode ;;
        match order with
        | None => ret (mkResponse 404 (BError "Order not found"))
        | Some (order, customer) =>
            customerEmail <- match customer with
                             | Some c => ret (cust_email c)
                             | None => throw TypeError
                             end ;;
            if negb (String.eqb (JS.toLowerCase customerEmail)
                                (JS.toLowerCase email))
            then ret (mkResponse 403
                        (BError "This order does not belong to the provided email address"))
            else ret (mkResponse 200 (BOrderVerified (order, customer)))
        end
      else
        customer <- Customer_findOne_email (Some (JS.toLowerCase email)) ;;
        match customer with
        | None =>
            ret (mkResponse 404 (BError "No orders found for this email address"))
        | Some customer =>
            orders <- Order_find_customer (cust_id customer) ;;
            ret (mkResponse 200 (BOrders orders customer))
        end
  | _, _ => ret (mkResponse 400 (BError "Email address is required"))
  end.

Definition post_api_orders_verify (email orderCode : option string)
  : World -> Store -> option Response * Store :=
  tryCatch (verifyOrder email orderCode)
           (fun error => mkResponse 500 (BException error)).

(** POST /api/webhooks/paystack.  The handler starts with
    [crypto.createHmac('sha512', key)].  [crypto] is what the identifier
    [crypto] is bound to where the handler runs: [Some f] for Node's crypto
    module, [f key message] being the hexadecimal HMAC-SHA512 digest of
    [message] under [key]; [None] when it is not bound to such a module,
    so that the call throws (a ReferenceError, or a TypeError where the
    runtime has a global object of that name without [createHmac]; the
    [catch] does not look at the error).  [JSON.stringify] is a
    parameter. *)
Section Webhook.

Variable crypto : option (string -> string -> string).
Variable JSON_stringify : WebhookEvent -> string.

Definition webhookHash (event : WebhookEvent) : M string :=
  match crypto with
  | None => throw TypeError
  | Some hmacSha512Hex =>
      w <- world ;;
      match PAYSTACK_SECRET_KEY w with
      | Some key => ret (hmacSha512Hex key (JSON_stringify event))
      | None => throw TypeError
      end
  end.

Definition handleWebhook (signature : option string) (event : WebhookEvent)
  : M Response :=
  hash <- webhookHash event ;;
  (if JS.strictEq (Some hash) signature then
     if JS.strictEq (ev_event event) (Some "charge.success") then
       data <- match ev_data event with
               | Some d => ret d
               | None => throw TypeError
               end ;;
       applySuccess (wd_reference data)
     else ret tt
   else ret tt) ;;;
  ret (mkResponse 200 (BText "OK")).

Definition post_api_webhooks_paystack (signature : option string)
  (event : WebhookEvent) : World -> Store -> option Response * Store :=
  tryCatch (handleWebhook signature event)
           (fun error => mkResponse 500 (BText "Webhook error")).

End Webhook.

(** The binding of [crypto] in server.js: the file requires express,
    mongoose, cors, dotenv and axios (lines 2 to 6) and never [crypto]. *)
Definition serverCrypto : option (string -> string -> string) := None.

(* ------------------------------------------------------------------ *)
(** ** Vocabulary of the statements *)

(** The state after [n] iterations of the allocation loop: [n] readings
    of the clock, [n] random numbers, [n] lookups; the store is the same. *)
Definition advance (n : nat) (st : St) : St :=
  mkSt (db st) (n + kClock st) (n + kRandom st) (kId st) (n + kDb st).

(** The code proposed at iteration [i] of a loop started in state [st]. *)
Definition candidate (w : World) (st : St) (i : nat) : string :=
  "PH" ++ JS.sliceLast 6 (JS.toString (clock w (i + kClock st)))
       ++ JS.toUpperCase (JS.substring 2 6 (random36 w (i + kRandom st))).

(** The state after [n] database operations and nothing else. *)
Definition bumpDb (n : nat) (st : St) : St :=
  mkSt (db st) (kClock st) (kRandom st) (kId st) (n + kDb st).

(** The store after the success transition was written for [o] at time
    [now]. *)
Definition storeAfterPaid (now : Date) (o : Order) (s : Store) : Store :=
  mkStore (customers s) (replaceOrder (markPaid now o) (orders s)).

(** The store in which the order [o] carries the time stamp [t]. *)
Definition restamped (t : Date) (o : Order) (s : Store) : Store :=
  mkStore (customers s) (replaceOrder (set_updatedAt t o) (orders s)).

(** The two answers of the webhook handler. *)
Definition webhookOk : Response := mkResponse 200 (BText "OK").

Definition webhookError : Response := mkResponse 500 (BText "Webhook error").

(** The answers of the verify handler. *)
Definition verifyFailure (e : Exn) : Response :=
  mkResponse 500 (BFailure "Payment verification failed" e).

Definition verifyReport (pd : PaymentData) : Response :=
  mkResponse 200
    (BPayment (pd_status pd)
              (option_map (fun a => (a / 100)%Q) (pd_amount pd))
              (pd_reference pd)).

(** The gateway reports [success] for [reference] to the verify request
    made in [w], and the database is up. *)
Definition gatewayConfirms (reference : option string) (w : World) : Prop :=
  (exists pd, paystackVerify w reference = Some (Some pd) /\
              pd_status pd = Some "success") /\
  dbRejects w 0 = false /\ dbRejects w 1 = false.

(** Verify requests for [reference] handled one after the other, each in
    its own world. *)
Fixpoint verifyAll (reference : option string) (ws : list World) (s : Store)
  : list (option Response) * Store :=
  match ws with
  | [] => ([], s)
  | w :: ws' =>
      let (r, s1) := post_api_payments_verify reference w s in
      let (rs, s2) := verifyAll reference ws' s1 in
      (r :: rs, s2)
  end.

(** The answer of POST /api/customers. *)
Definition customerCreated (c : Customer) : Response :=
  mkResponse 201 (BCustomer c).

(** Two characters are the same letter when they are equal or one is the
    lower-case form of the other, an upper-case letter. *)
Definition sameLetter (a b : ascii) : Prop :=
  a = b \/
  (JS.isUpper a = true /\ b = JS.lowerChar a) \/
  (JS.isUpper b = true /\ a = JS.lowerChar b).

(** Equality of strings ignoring case, letter by letter. *)
Inductive equalIgnoringCase : string -> string -> Prop :=
| eic_empty : equalIgnoringCase "" ""
| eic_letter (a b : ascii) (s t : string) :
    sameLetter a b -> equalIgnoringCase s t ->
    equalIgnoringCase (String a s) (String b t).

(** The error answers of the lookups. *)
Definition orderNotFound : Response :=
  mkResponse 404 (BError "Order not found").

Definition ownershipMismatch : Response :=
  mkResponse 403
    (BError "This order does not belong to the provided email address").

Definition noOrdersForEmail : Response :=
  mkResponse 404 (BError "No orders found for this email address").

(** Newest first. *)
Inductive newestFirst : list PopulatedOrder -> Prop :=
| nf_nil : newestFirst []
| nf_cons (p : PopulatedOrder) (l : list PopulatedOrder) :
    Forall (fun q => ord_createdAt (fst q) <= ord_createdAt (fst p)) l ->
    newestFirst l -> newestFirst (p :: l).

(** The error answer of POST /api/payments/initialize. *)
Definition initFailure (e : Exn) : Response :=
  mkResponse 500 (BFailure "Payment initialization failed" e).

(** The reference generated for [o] when the clock reads [now]. *)
Definition referenceFor (o : Order) (now : Z) : string :=
  "order_" ++ ord_id o ++ "_" ++ JS.toString now.

(** The message sent to the gateway for [o], owned by [c]. *)
Definition paymentDataFor (email : option string) (w : World)
  (o : Order) (c : Customer) : InitRequest :=
  mkInitRequest
    (match email, JS.truthy email with
     | Some e, true => e
     | _, _ => cust_email c
     end)
    (ord_totalAmount o * 100)%Q
    (referenceFor o (clock w 0))
    (callbackBase w ++ "/payment/callback")
    (ord_id o)
    (cust_firstName c ++ " " ++ cust_lastName c)
    (ord_type o).

(** The store after the generated reference was written to [o]. *)
Definition storeAfterInit (w : World) (o : Order) (s : Store) : Store :=
  mkStore (customers s)
          (replaceOrder (set_paymentReference (referenceFor o (clock w 0)) o)
                        (orders s)).

(** Case analysis on the hypotheses of a goal about a handler's outcome. *)
Ltac crush_cases :=
  repeat match goal with
         | H : exists _, _ |- _ => destruct H
         | H : _ /\ _ |- _ => destruct H
         | H : _ \/ _ |- _ => destruct H
         | H : Some _ = Some _ |- _ => inversion H; clear H; subst
         | H : (_, _) = (_, _) |- _ => inversion H; clear H; subst
         end;
  try congruence; try discriminate; try contradiction.

(** [m] keeps the property [I] of the store, whatever its outcome. *)
Definition keeps {A : Type} (I : Store -> Prop) (m : M A) : Prop :=
  forall w st, I (db st) -> I (db (snd (m w st))).

(** No two customers with the same email, no two orders with the same
    order code, no two orders with the same [_id]. *)
Definition uniqueEmails (s : Store) : Prop :=
  NoDup (map cust_email (customers s)).

Definition uniqueOrderCodes (s : Store) : Prop :=
  NoDup (map ord_orderCode (orders s)).

Definition uniqueOrderIds (s : Store) : Prop :=
  NoDup (map ord_id (orders s)).

(** [y] is [x] but for the fields that the payment handlers write:
    [status], [paymentReference], [paymentStatus] and [updatedAt]. *)
Definition sameOrderCore (x y : Order) : Prop :=
  ord_id y = ord_id x /\ ord_customer y = ord_customer x /\
  ord_orderCode y = ord_orderCode x /\ ord_type y = ord_type x /\
  ord_items y = ord_items x /\ ord_totalAmount y = ord_totalAmount x /\
  ord_createdAt y = ord_createdAt x.

(** No letter a-z occurs in [s]. *)
Definition noLowerCase (s : string) : Prop :=
  forall c, In c (list_ascii_of_string s) -> JS.isLower c = false.

(** The answers of the lookups when the store rejects. *)
Definition lookupFailure : Response :=
  mkResponse 500 (BException StoreError).

(** [o] is the first stored order that carries [reference]: the one
    [Order.findOne({ paymentReference: reference })] resolves with. *)
Definition firstOrderWith (reference : option string) (o : Order) (s : Store)
  : Prop :=
  exists before after,
    orders s = (before ++ o :: after)%list /\
    ord_paymentReference o = reference /\
    forall x, In x before -> ord_paymentReference x <> reference.

(** The ObjectId an [orderId] denotes. *)
Definition denotes (orderId : option ObjectId) (i : ObjectId) : Prop :=
  exists x, orderId = Some x /\ castObjectId x = Some i.

(** An [orderId] of 12 characters. *)
Definition twelveBytes (orderId : option ObjectId) : Prop :=
  exists x, orderId = Some x /\ String.length x = 12%nat.

(** The error answers of the two creation handlers. *)
Definition creationFailure (e : Exn) : Response :=
  mkResponse 400 (BException e).

(* ------------------------------------------------------------------ *)
(** ** Concrete worlds, stores and requests *)

(** A gateway that cannot be reached. *)
Definition noGatewayInit : InitRequest -> option (option InitData) :=
  fun _ => None.

Definition noGatewayVerify : option string -> option (option PaymentData) :=
  fun _ => None.

(** ObjectIds handed out in the concrete worlds. *)
Definition sampleId (k : nat) : ObjectId :=
  "65f0c0ffee" ++ JS.toString (Z.of_nat k).

(** A customer and the profile that request bodies carry for it. *)
Definition sampleCustomer : Customer :=
  mkCustomer "c1" "a@x.com" "A" "B" "123" 1700000000000.

Definition sampleProfile : CustomerData :=
  mkCustomerData (Some "a@x.com") (Some "A") (Some "B") (Some "123").

(** A pending food order carrying [code]. *)
Definition orderWithCode (i : ObjectId) (code : string) : Order :=
  mkOrder i "c1" code food [] (20 # 1) pending None pay_pending
          1700000000000 1700000000000.

(** A clock that advances by one millisecond per reading and a random
    number that prints as [0.abcdxyz] every time. *)
Definition tickingWorld : World :=
  mkWorld (fun k => 1700000123456 + Z.of_nat k) (fun _ => "0.abcdxyz")
          sampleId (fun _ => false) (Some "sk_test") None
          noGatewayInit noGatewayVerify.

(** A store whose orders already carry the first six codes that
    [tickingWorld] proposes. *)
Definition crowdedStore : Store :=
  mkStore []
    [ orderWithCode "o0" "PH123456ABCD"; orderWithCode "o1" "PH123457ABCD";
      orderWithCode "o2" "PH123458ABCD"; orderWithCode "o3" "PH123459ABCD";
      orderWithCode "o4" "PH123460ABCD"; orderWithCode "o5" "PH123461ABCD" ].

(** A world in which every proposal is [PH123456ABCD], and a store that
    holds [sampleCustomer] and an order with that code. *)
Definition collidingWorld : World :=
  mkWorld (fun _ => 1700000123456) (fun _ => "0.abcdxyz")
          sampleId (fun _ => false) (Some "sk_test") None
          noGatewayInit noGatewayVerify.

Definition collidingStore : Store :=
  mkStore [sampleCustomer] [ orderWithCode "o0" "PH123456ABCD" ].

(** The clock of [tickingWorld] and a random number equal to one half,
    which prints in base 36 as [0.i]. *)
Definition halfWorld : World :=
  mkWorld (fun k => 1700000123456 + Z.of_nat k) (fun _ => "0.i")
          sampleId (fun _ => false) (Some "sk_test") None
          noGatewayInit noGatewayVerify.

(** A gateway that reports every transaction as failed. *)
Definition failedWorld : World :=
  mkWorld (fun k => 1700000200000 + Z.of_nat k) (fun _ => "0.abcdxyz")
          sampleId (fun _ => false) (Some "sk_test") None noGatewayInit
          (fun reference =>
             Some (Some (mkPaymentData (Some "failed") (Some (2000 # 1))
                                       reference))).

(** A gateway that accepts every initialization and reports every
    transaction as successful. *)
Definition payingWorld : World :=
  mkWorld (fun k => 1700000123456 + Z.of_nat k) (fun _ => "0.abcdxyz")
          sampleId (fun _ => false) (Some "sk_test") None
          (fun _ => Some (Some (mkInitData (Some "https://checkout.example/x")
                                           (Some "access_x"))))
          (fun reference =>
             Some (Some (mkPaymentData (Some "success") (Some (2000 # 1))
                                       reference))).

(** Stand-ins for the digest and for [JSON.stringify] at concrete inputs. *)
Definition sampleHmac (key message : string) : string :=
  "hmac-sha512(" ++ key ++ "," ++ message ++ ")".

Definition sampleStringify (event : WebhookEvent) : string :=
  "{event:" ++ match ev_event event with Some e => e | None => "" end
  ++ ",reference:"
  ++ match ev_data event with
     | Some d => match wd_reference d with Some r => r | None => "" end
     | None => ""
     end ++ "}".

(** An order of [sampleCustomer] whose payment was initialized, and a
    store that holds both. *)
Definition awaitingOrder : Order :=
  mkOrder "o1" "c1" "PH000000ABCD" food [] (20 # 1) pending
          (Some "order_o1_1700000000001") pay_pending
          1700000000000 1700000000000.

Definition awaitingStore : Store := mkStore [sampleCustomer] [awaitingOrder].

(** The same order after its payment succeeded. *)
Definition paidOrder : Order :=
  mkOrder "o1" "c1" "PH000000ABCD" food [] (20 # 1) paid
          (Some "order_o1_1700000000001") pay_success
          1700000000000 1700000100000.

Definition paidStore : Store := mkStore [sampleCustomer] [paidOrder].

(** A [charge.success] event for [reference]. *)
Definition chargeSuccess (reference : string) : WebhookEvent :=
  mkWebhookEvent (Some "charge.success") (Some (mkWebhookData (Some reference))).

(** The signature header the gateway sends with [event] under the secret
    of the concrete worlds. *)
Definition sampleSignature (event : WebhookEvent) : option string :=
  Some (sampleHmac "sk_test" (sampleStringify event)).

(** The profile of [sampleCustomer] with its email in another case, and
    the customer created from it in [tickingWorld]. *)
Definition upperCaseProfile : CustomerData :=
  mkCustomerData (Some "A@x.com") (Some "A") (Some "B") (Some "123").

Definition upperCaseCustomer : Customer :=
  mkCustomer (sampleId 0) "A@x.com" "A" "B" "123" 1700000123456.

(** Orders of a known and of an unknown type for the profile [d]. *)
Definition foodRequest (d : CustomerData) : OrderRequest :=
  mkOrderRequest (Some d) [] (Some "food") (Some (20 # 1)).

Definition spaRequest (d : CustomerData) : OrderRequest :=
  mkOrderRequest (Some d) [] (Some "spa") (Some (20 # 1)).

(** A customer and an order with ids as MongoDB makes them; the payment of
    the order has been initialized once. *)
Definition hexCustomer : Customer :=
  mkCustomer "65f0c0ffee65f0c0ffee00c1" "h@x.com" "H" "X" "456" 1700000000000.

Definition hexOrder : Order :=
  mkOrder "65f0c0ffee65f0c0ffee0001" "65f0c0ffee65f0c0ffee00c1"
          "PH000001ABCD" room [] (50 # 1) pending
          (Some "order_65f0c0ffee65f0c0ffee0001_1700000000001") pay_pending
          1700000000000 1700000000000.

Definition hexStore : Store := mkStore [hexCustomer] [hexOrder].

(** Two customers with an order each. *)
Definition twoGuestStore : Store :=
  mkStore [hexCustomer; sampleCustomer] [hexOrder; awaitingOrder].

(** An order that was cancelled after its payment had been initialized. *)
Definition cancelledOrder : Order :=
  mkOrder "o1" "c1" "PH000000ABCD" food [] (20 # 1) cancelled
          (Some "order_o1_1700000000001") pay_pending
          1700000000000 1700000050000.

Definition cancelledStore : Store := mkStore [sampleCustomer] [cancelledOrder].

(** A gateway whose initialize call resolves with a payload that has no
    [data] member. *)
Definition emptyPayloadWorld : World :=
  mkWorld (fun k => 1700000123456 + Z.of_nat k) (fun _ => "0.abcdxyz")
          sampleId (fun _ => false) (Some "sk_test") None
          (fun _ => Some None) noGatewayVerify.

(* ------------------------------------------------------------------ *)
(** ** Auxiliary facts: strings *)

Lemma substring_length (s : string) (n m : nat) :
  String.length (String.substring n m s) = Nat.min m (String.length s - n).
Proof.
  revert n m.
  induction s as [| c s IH]; intros [| n] [| m]; simpl; try reflexivity.
  - rewrite IH, Nat.sub_0_r. reflexivity.
  - rewrite IH. reflexivity.
  - rewrite IH. reflexivity.
Qed.

Lemma mapChars_length (f : ascii -> ascii) (s : string) :
  String.length (JS.mapChars f s) = String.length s.
Proof.
  induction s as [| c s IH]; simpl; congruence.
Qed.

Lemma append_length (a b : string) :
  String.length (a ++ b) = (String.length a + String.length b)%nat.
Proof.
  induction a as [| c a IH]; simpl; congruence.
Qed.

Lemma sliceLast_length (k : nat) (s : string) :
  String.length (JS.sliceLast k s) = Nat.min k (String.length s).
Proof.
  unfold JS.sliceLast. rewrite substring_length. lia.
Qed.

Lemma strictEq_Some_true (a b : string) :
  JS.strictEq (Some a) (Some b) = true <-> a = b.
Proof. simpl. apply String.eqb_eq. Qed.

Lemma strictEq_true (a b : option string) :
  JS.strictEq a b = true <-> a = b.
Proof.
  destruct a as [x |], b as [y |]; simpl; try (split; congruence).
  rewrite String.eqb_eq. split; congruence.
Qed.

Lemma strictEq_false (a b : option string) :
  JS.strictEq a b = false <-> a <> b.
Proof.
  rewrite <- strictEq_true. destruct (JS.strictEq a b); split; congruence.
Qed.

Lemma truthy_Some (s : option string) :
  JS.truthy s = true -> exists c r, s = Some (String c r).
Proof.
  destruct s as [[| c r] |]; simpl; try discriminate. eauto.
Qed.

(* ------------------------------------------------------------------ *)
(** ** [generateOrderCode] and the allocation loop *)

Lemma generateOrderCode_run (w : World) (st : St) :
  generateOrderCode w st =
  (Ok (candidate w st 0),
   mkSt (db st) (S (kClock st)) (S (kRandom st)) (kId st) (kDb st)).
Proof. reflexivity. Qed.

(** The generator reads the clock and [Math.random] only: it consumes no
    database operation, leaves the store alone and proposes the same code
    whatever the store holds. *)
Lemma generateOrderCode_no_store_lookup (w : World) (st : St) (s : Store) :
  let st' := mkSt s (kClock st) (kRandom st) (kId st) (kDb st) in
  fst (generateOrderCode w st') = fst (generateOrderCode w st) /\
  db (snd (generateOrderCode w st)) = db st /\
  kDb (snd (generateOrderCode w st)) = kDb st.
Proof. repeat split. Qed.

(** A generated code starts with [PH]; the time segment has at most 6 and
    the random segment at most 4 characters, fewer when the strings they
    are cut from are short. *)
Lemma candidate_shape (w : World) (st : St) (i : nat) :
  exists t r,
    candidate w st i = "PH" ++ t ++ r /\
    String.length t =
      Nat.min 6 (String.length (JS.toString (clock w (i + kClock st)))) /\
    String.length r = Nat.min 4 (String.length (random36 w (i + kRandom st)) - 2).
Proof.
  eexists _, _. split; [reflexivity |]. split.
  - apply sliceLast_length.
  - unfold JS.toUpperCase, JS.substring.
    rewrite mapChars_length, substring_length. reflexivity.
Qed.

Lemma candidate_length (w : World) (st : St) (i : nat) :
  String.length (candidate w st i) =
  (2 + Nat.min 6 (String.length (JS.toString (clock w (i + kClock st))))
     + Nat.min 4 (String.length (random36 w (i + kRandom st)) - 2))%nat.
Proof.
  destruct (candidate_shape w st i) as (t & r & -> & Ht & Hr).
  rewrite !append_length, Ht, Hr.
  change (String.length "PH") with 2%nat. lia.
Qed.

Lemma candidate_advance (w : World) (st : St) (i : nat) :
  candidate w (advance 1 st) i = candidate w st (S i).
Proof.
  unfold candidate, advance. simpl.
  rewrite !Nat.add_succ_r. reflexivity.
Qed.

Lemma advance_advance (n : nat) (st : St) :
  advance n (advance 1 st) = advance (S n) st.
Proof.
  unfold advance. simpl. rewrite !Nat.add_succ_r. reflexivity.
Qed.

(** One iteration of the loop. *)
Lemma orderCodeLoop_step (fuel : nat) (w : World) (st : St) :
  orderCodeLoop (S fuel) w st =
  if dbRejects w (kDb st) then (Throw StoreError, advance 1 st)
  else match findByOrderCode (Some (candidate w st 0)) (db st) with
       | None => (Ok (candidate w st 0), advance 1 st)
       | Some _ => orderCodeLoop fuel w (advance 1 st)
       end.
Proof.
  cbn [orderCodeLoop]. unfold bind at 1. rewrite generateOrderCode_run.
  unfold bind, Order_findOne_orderCode, dbRead, ret, advance. cbn [db kDb kClock kRandom kId].
  destruct (dbRejects w (kDb st)); [reflexivity |].
  destruct (findByOrderCode _ (db st)); reflexivity.
Qed.

(** The loop raises nothing but a failure of the store. *)
Lemma orderCodeLoop_throws (fuel : nat) (w : World) (st : St) (e : Exn) :
  fst (orderCodeLoop fuel w st) = Throw e -> e = StoreError.
Proof.
  revert st. induction fuel as [| fuel IH]; intros st.
  - simpl. discriminate.
  - rewrite orderCodeLoop_step.
    destruct (dbRejects w (kDb st)); [simpl; congruence |].
    destruct (findByOrderCode _ (db st)); [apply IH | simpl; discriminate].
Qed.

(** While the candidates are taken the loop keeps going. *)
Lemma orderCodeLoop_taken (n : nat) (w : World) (st : St) :
  (forall i, (i < n)%nat -> dbRejects w (i + kDb st) = false) ->
  (forall i, (i < n)%nat ->
     findByOrderCode (Some (candidate w st i)) (db st) <> None) ->
  forall fuel,
    orderCodeLoop (n + fuel) w st = orderCodeLoop fuel w (advance n st).
Proof.
  revert st. induction n as [| n IH]; intros st Hdb Htaken fuel.
  - destruct st; reflexivity.
  - cbn [Nat.add]. rewrite orderCodeLoop_step.
    assert (H0 : dbRejects w (kDb st) = false) by (apply (Hdb 0%nat); lia).
    rewrite H0.
    destruct (findByOrderCode (Some (candidate w st 0)) (db st)) eqn:E.
    + rewrite IH.
      * rewrite advance_advance. reflexivity.
      * intros i Hi.
        replace (i + kDb (advance 1 st))%nat with (S i + kDb st)%nat
          by (unfold advance; simpl; lia).
        apply Hdb. lia.
      * intros i Hi. rewrite candidate_advance. apply Htaken. lia.
    + exfalso. apply (Htaken 0%nat); [lia | exact E].
Qed.

Lemma orderCodeLoop_Spin (n : nat) (w : World) (st : St) :
  (forall i, (i < n)%nat -> dbRejects w (i + kDb st) = false) ->
  (forall i, (i < n)%nat ->
     findByOrderCode (Some (candidate w st i)) (db st) <> None) ->
  fst (orderCodeLoop n w st) = Spin.
Proof.
  intros Hdb Htaken.
  replace n with (n + 0)%nat by lia.
  rewrite orderCodeLoop_taken by assumption. reflexivity.
Qed.

Lemma orderCodeLoop_returns (n : nat) (w : World) (st : St) :
  (forall i, (i <= n)%nat -> dbRejects w (i + kDb st) = false) ->
  (forall i, (i < n)%nat ->
     findByOrderCode (Some (candidate w st i)) (db st) <> None) ->
  findByOrderCode (Some (candidate w st n)) (db st) = None ->
  forall fuel, (n < fuel)%nat ->
    orderCodeLoop fuel w st = (Ok (candidate w st n), advance (S n) st).
Proof.
  intros Hdb Htaken Hfree fuel Hfuel.
  replace fuel with (n + S (fuel - S n))%nat by lia.
  rewrite orderCodeLoop_taken; [| intros; apply Hdb; lia | assumption].
  rewrite orderCodeLoop_step.
  assert (Hn : dbRejects w (kDb (advance n st)) = false)
    by (apply (Hdb n); lia).
  rewrite Hn.
  replace (candidate w (advance n st) 0) with (candidate w st n)
    by reflexivity.
  change (db (advance n st)) with (db st). rewrite Hfree.
  reflexivity.
Qed.

Lemma orderCodeLoop_colliding (fuel : nat) (st : St) :
  findByOrderCode (Some "PH123456ABCD") (db st) <> None ->
  fst (orderCodeLoop fuel collidingWorld st) = Spin.
Proof.
  revert st. induction fuel as [| fuel IH]; intros st Hst.
  - reflexivity.
  - rewrite orderCodeLoop_step.
    change (dbRejects collidingWorld (kDb st)) with false.
    change (candidate collidingWorld st 0) with "PH123456ABCD".
    destruct (findByOrderCode (Some "PH123456ABCD") (db st)) eqn:E.
    + apply IH. change (db (advance 1 st)) with (db st).
      rewrite E. discriminate.
    + contradiction.
Qed.

(** At the level of the handler: the customer of the request exists, the
    only code the generator proposes is taken, and POST /api/orders gives
    no answer however many iterations it is allowed. *)
Lemma post_api_orders_colliding (fuel : nat) :
  fst (post_api_orders fuel
         (mkOrderRequest (Some sampleProfile) [] (Some "food") (Some (20 # 1)))
         collidingWorld collidingStore)
  = None.
Proof.
  unfold post_api_orders, tryCatch, createOrder.
  cbv beta iota delta [bind ret rq_customerData getOrCreateCustomer].
  change (Customer_findOne_email (cd_email sampleProfile) collidingWorld
            (initSt collidingStore))
    with (Ok (Some sampleCustomer), mkSt collidingStore 0 0 0 1).
  cbv iota beta.
  set (st := mkSt collidingStore 0%nat 0%nat 0%nat 1%nat).
  assert (Hspin : fst (orderCodeLoop fuel collidingWorld st) = Spin)
    by (apply orderCodeLoop_colliding; vm_compute; discriminate).
  destruct (orderCodeLoop fuel collidingWorld st) as [r st1].
  cbn [fst] in Hspin. subst r. reflexivity.
Qed.

(* ------------------------------------------------------------------ *)
(** ** C1: order-code allocation *)

(** C1 (as the code has it).  Every iteration of the allocation loop
    proposes a fresh candidate (the next reading of the clock and the next
    random number) and the loop ends at the first candidate that no stored
    order carries: when the first [n] candidates are taken it has no
    outcome within [n] iterations, whatever [n] is; when the candidate
    after them is free it returns that candidate, having made [n + 1]
    attempts and left the store as it was.  The loop has no retry limit and
    raises nothing but a failure of the store itself. *)
Theorem order_code_allocation_first_free (w : World) (st : St) (n : nat) :
  (forall i, (i <= n)%nat -> dbRejects w (i + kDb st) = false) ->
  (forall i, (i < n)%nat ->
     findByOrderCode (Some (candidate w st i)) (db st) <> None) ->
  fst (orderCodeLoop n w st) = Spin /\
  (findByOrderCode (Some (candidate w st n)) (db st) = None ->
   forall fuel, (n < fuel)%nat ->
     orderCodeLoop fuel w st = (Ok (candidate w st n), advance (S n) st)) /\
  (forall fuel e, fst (orderCodeLoop fuel w st) = Throw e -> e = StoreError).
Proof.
  intros Hdb Htaken. split; [| split].
  - apply orderCodeLoop_Spin; [intros; apply Hdb; lia | assumption].
  - intros Hfree. apply orderCodeLoop_returns; assumption.
  - intros fuel e. apply orderCodeLoop_throws.
Qed.

(** Six collisions in a row: the loop makes a seventh attempt and returns
    its candidate. *)
Lemma order_code_allocation_first_free_witness :
  fst (orderCodeLoop 6 tickingWorld (initSt crowdedStore)) = Spin /\
  orderCodeLoop 7 tickingWorld (initSt crowdedStore) =
    (Ok "PH123462ABCD", advance 7 (initSt crowdedStore)).
Proof.
  assert (Hdb : forall i, (i <= 6)%nat ->
            dbRejects tickingWorld (i + kDb (initSt crowdedStore)) = false)
    by reflexivity.
  assert (Htaken : forall i, (i < 6)%nat ->
            findByOrderCode
              (Some (candidate tickingWorld (initSt crowdedStore) i))
              (db (initSt crowdedStore)) <> None).
  { intros i Hi.
    do 6 (destruct i as [| i]; [vm_compute; discriminate |]).
    exfalso. lia. }
  destruct (order_code_allocation_first_free
              tickingWorld (initSt crowdedStore) 6 Hdb Htaken)
    as (Hspin & Hret & _).
  split; [exact Hspin |].
  apply (Hret eq_refl 7%nat). lia.
Defined.

(** C1 (as stated) fails: with [collidingWorld] and [collidingStore] the
    loop has no outcome however many iterations it is given, and neither
    has the handler around it; so no retry count bounds the number of
    attempts and no exhaustion error is ever raised. *)
Lemma order_code_allocation_unbounded :
  (forall fuel,
     fst (orderCodeLoop fuel collidingWorld (initSt collidingStore)) = Spin) /\
  (forall fuel,
     fst (post_api_orders fuel
            (mkOrderRequest (Some sampleProfile) [] (Some "food")
                            (Some (20 # 1)))
            collidingWorld collidingStore) = None) /\
  ~ (exists maxRetries : nat, forall (w : World) (s : Store),
       fst (orderCodeLoop maxRetries w (initSt s)) <> Spin).
Proof.
  split; [| split].
  - intros fuel. apply orderCodeLoop_colliding. vm_compute. discriminate.
  - apply post_api_orders_colliding.
  - intros [maxRetries H].
    apply (H collidingWorld collidingStore).
    apply orderCodeLoop_colliding. vm_compute. discriminate.
Qed.

(* ------------------------------------------------------------------ *)
(** ** C8: shape of a generated code *)

(** When the clock prints with at least six digits and the random number
    with at least four digits after [0.], the code has twelve characters. *)
Lemma candidate_length_12 (w : World) (st : St) (i : nat) :
  (6 <= String.length (JS.toString (clock w (i + kClock st))))%nat ->
  (6 <= String.length (random36 w (i + kRandom st)))%nat ->
  String.length (candidate w st i) = 12%nat.
Proof.
  intros Ht Hr. rewrite candidate_length. lia.
Qed.

(** C8 (code at the failing input).  When [Math.random()] returns 0.5 its
    base-36 text is [0.i], [substring(2, 6)] keeps the single character
    [i], and the generated code is [PH123456I]: nine characters, with a
    random segment of one character instead of four. *)
Theorem generateOrderCode_short_random_segment :
  fst (generateOrderCode halfWorld (initSt (mkStore [] []))) = Ok "PH123456I" /\
  String.length "PH123456I" = 9%nat /\
  JS.toUpperCase (JS.substring 2 6 (random36 halfWorld 0)) = "I".
Proof. repeat split. Qed.

(* ------------------------------------------------------------------ *)
(** ** The success transition and the webhook handler, evaluated *)

Lemma applySuccess_run (reference : option string) (w : World) (st : St) :
  applySuccess reference w st =
  if dbRejects w (kDb st) then (Throw StoreError, bumpDb 1 st)
  else match findByPaymentReference reference (db st) with
       | None => (Ok tt, bumpDb 1 st)
       | Some o =>
           if dbRejects w (S (kDb st))
           then (Throw StoreError,
                 mkSt (db st) (S (kClock st)) (kRandom st) (kId st)
                      (2 + kDb st))
           else (Ok tt,
                 mkSt (storeAfterPaid (clock w (kClock st)) o (db st))
                      (S (kClock st)) (kRandom st) (kId st) (2 + kDb st))
       end.
Proof.
  unfold applySuccess, bind, Order_findOne_paymentReference, dbRead.
  destruct (dbRejects w (kDb st)); [reflexivity |].
  destruct (findByPaymentReference reference (db st)) as [o |];
    [| reflexivity].
  unfold Date_now, Order_save, dbWrite. cbn [db kDb kClock kRandom kId].
  destruct (dbRejects w (S (kDb st))); reflexivity.
Qed.

Lemma post_api_webhooks_paystack_run
  (crypto : option (string -> string -> string))
  (stringify : WebhookEvent -> string)
  (signature : option string) (event : WebhookEvent) (w : World) (s : Store) :
  post_api_webhooks_paystack crypto stringify signature event w s =
  match crypto with
  | None => (Some webhookError, s)
  | Some hmac =>
      match PAYSTACK_SECRET_KEY w with
      | None => (Some webhookError, s)
      | Some key =>
          if JS.strictEq (Some (hmac key (stringify event))) signature then
            if JS.strictEq (ev_event event) (Some "charge.success") then
              match ev_data event with
              | None => (Some webhookError, s)
              | Some d =>
                  if dbRejects w 0 then (Some webhookError, s)
                  else match findByPaymentReference (wd_reference d) s with
                       | None => (Some webhookOk, s)
                       | Some o =>
                           if dbRejects w 1 then (Some webhookError, s)
                           else (Some webhookOk,
                                 storeAfterPaid (clock w 0) o s)
                       end
              end
            else (Some webhookOk, s)
          else (Some webhookOk, s)
      end
  end.
Proof.
  unfold post_api_webhooks_paystack, tryCatch, handleWebhook, webhookHash.
  destruct crypto as [hmac |]; [| reflexivity].
  unfold bind at 1 2. unfold world at 1.
  destruct (PAYSTACK_SECRET_KEY w) as [key |]; [| reflexivity].
  unfold ret at 1.
  destruct (JS.strictEq (Some (hmac key (stringify event))) signature);
    [| reflexivity].
  destruct (JS.strictEq (ev_event event) (Some "charge.success"));
    [| reflexivity].
  destruct (ev_data event) as [d |]; [| reflexivity].
  unfold bind, ret at 1. rewrite applySuccess_run.
  cbn [initSt db kDb kClock].
  destruct (dbRejects w 0); [reflexivity |].
  destruct (findByPaymentReference (wd_reference d) s) as [o |];
    [| reflexivity].
  destruct (dbRejects w 1); reflexivity.
Qed.

(** Without a binding for [crypto] the first statement of the handler
    throws: every request is answered 500 and nothing is read or
    written. *)
Lemma post_api_webhooks_paystack_unbound (stringify : WebhookEvent -> string)
  (signature : option string) (event : WebhookEvent) (w : World) (s : Store) :
  post_api_webhooks_paystack serverCrypto stringify signature event w s
  = (Some webhookError, s).
Proof.
  rewrite post_api_webhooks_paystack_run. reflexivity.
Qed.

(* ------------------------------------------------------------------ *)
(** ** C2: the answers of the webhook *)

(** C2 (code at the failing input).  server.js never requires [crypto], so
    [crypto.createHmac] throws on every webhook request and the [catch]
    answers 500: for [awaitingStore], a [charge.success] event for the
    reference of [awaitingOrder] with the signature the gateway sends
    (the applied case), the same event with a forged signature (the
    unmatched case) and a signed event for a reference that no order
    carries (the unknown-order case) are all answered 500 with
    [Webhook error], and the order is not marked paid. *)
Theorem webhook_answers_500_in_every_case :
  post_api_webhooks_paystack serverCrypto sampleStringify
    (sampleSignature (chargeSuccess "order_o1_1700000000001"))
    (chargeSuccess "order_o1_1700000000001") payingWorld awaitingStore
    = (Some (mkResponse 500 (BText "Webhook error")), awaitingStore) /\
  post_api_webhooks_paystack serverCrypto sampleStringify
    (Some "forged")
    (chargeSuccess "order_o1_1700000000001") payingWorld awaitingStore
    = (Some (mkResponse 500 (BText "Webhook error")), awaitingStore) /\
  post_api_webhooks_paystack serverCrypto sampleStringify
    (sampleSignature (chargeSuccess "order_unknown_1"))
    (chargeSuccess "order_unknown_1") payingWorld awaitingStore
    = (Some (mkResponse 500 (BText "Webhook error")), awaitingStore) /\
  findByPaymentReference (Some "order_o1_1700000000001") awaitingStore
    = Some awaitingOrder /\
  findByPaymentReference (Some "order_unknown_1") awaitingStore = None.
Proof.
  split; [apply post_api_webhooks_paystack_unbound |].
  split; [apply post_api_webhooks_paystack_unbound |].
  split; [apply post_api_webhooks_paystack_unbound |].
  split; reflexivity.
Qed.

(* ------------------------------------------------------------------ *)
(** ** C5: a webhook with a wrong signature mutates nothing *)

(** C5.  When the signature header is not the digest of the body under the
    configured secret (a missing header included), the store after the
    webhook handler is the store before it, whatever the payload.  This
    holds whatever [crypto] is bound to: also in server.js, where it is
    not bound and no digest is computed at all. *)
Theorem webhook_bad_signature_no_mutation
  (crypto : option (string -> string -> string))
  (stringify : WebhookEvent -> string)
  (signature : option string) (event : WebhookEvent) (w : World) (s : Store) :
  (forall hmac key, crypto = Some hmac -> PAYSTACK_SECRET_KEY w = Some key ->
     signature <> Some (hmac key (stringify event))) ->
  snd (post_api_webhooks_paystack crypto stringify signature event w s) = s.
Proof.
  intros Hbad. rewrite post_api_webhooks_paystack_run.
  destruct crypto as [hmac |]; [| reflexivity].
  destruct (PAYSTACK_SECRET_KEY w) as [key |]; [| reflexivity].
  destruct (JS.strictEq (Some (hmac key (stringify event))) signature) eqn:E;
    [| reflexivity].
  apply strictEq_true in E. exfalso.
  apply (Hbad hmac key eq_refl eq_refl). congruence.
Qed.

(** A forged signature, in server.js as it is and with [crypto] bound to
    a digest. *)
Lemma webhook_bad_signature_no_mutation_witness :
  snd (post_api_webhooks_paystack serverCrypto sampleStringify (Some "forged")
         (chargeSuccess "order_o1_1700000000001") tickingWorld awaitingStore)
  = awaitingStore /\
  snd (post_api_webhooks_paystack (Some sampleHmac) sampleStringify
         (Some "forged")
         (chargeSuccess "order_o1_1700000000001") tickingWorld awaitingStore)
  = awaitingStore.
Proof.
  split.
  - apply webhook_bad_signature_no_mutation.
    intros hmac key Hc. discriminate Hc.
  - apply webhook_bad_signature_no_mutation.
    intros hmac key Hc Hkey.
    injection Hc as <-. injection Hkey as <-. vm_compute. discriminate.
Defined.

(* ------------------------------------------------------------------ *)
(** ** The verify handler, evaluated *)

Lemma post_api_payments_verify_run (reference : option string)
  (w : World) (s : Store) :
  post_api_payments_verify reference w s =
  match paystackVerify w reference with
  | None => (Some (verifyFailure AxiosError), s)
  | Some None => (Some (verifyFailure TypeError), s)
  | Some (Some pd) =>
      if JS.strictEq (pd_status pd) (Some "success") then
        if dbRejects w 0 then (Some (verifyFailure StoreError), s)
        else match findByPaymentReference reference s with
             | None => (Some (verifyReport pd), s)
             | Some o =>
                 if dbRejects w 1 then (Some (verifyFailure StoreError), s)
                 else (Some (verifyReport pd), storeAfterPaid (clock w 0) o s)
             end
      else (Some (verifyReport pd), s)
  end.
Proof.
  unfold post_api_payments_verify, tryCatch, verifyPayment, axios_get_verify.
  unfold bind at 1 2. unfold world at 1.
  destruct (paystackVerify w reference) as [[pd |] |]; try reflexivity.
  cbv beta iota delta [bind ret].
  destruct (JS.strictEq (pd_status pd) (Some "success")); [| reflexivity].
  rewrite applySuccess_run. cbn [initSt db kDb kClock].
  destruct (dbRejects w 0); [reflexivity |].
  destruct (findByPaymentReference reference s) as [o |]; [| reflexivity].
  destruct (dbRejects w 1); reflexivity.
Qed.

(* ------------------------------------------------------------------ *)
(** ** C3: a failed signal *)

(** C3 (as the code has it).  When gateway verify reports [failed] for a
    payment reference, the verify handler answers 200 with that status and
    writes nothing: the order awaiting payment keeps its [paymentStatus]
    (it is not set to [failed]) and its [status]. *)
Theorem verify_failed_leaves_store_unchanged
  (reference : option string) (w : World) (s : Store) (pd : PaymentData) :
  paystackVerify w reference = Some (Some pd) ->
  pd_status pd = Some "failed" ->
  post_api_payments_verify reference w s = (Some (verifyReport pd), s) /\
  status (verifyReport pd) = 200%nat /\
  (forall o, findByPaymentReference reference s = Some o ->
     findByPaymentReference reference
       (snd (post_api_payments_verify reference w s)) = Some o).
Proof.
  intros Hgw Hst.
  assert (E : post_api_payments_verify reference w s
              = (Some (verifyReport pd), s)).
  { rewrite post_api_payments_verify_run, Hgw, Hst. reflexivity. }
  rewrite E. repeat split. intros o Ho. exact Ho.
Qed.

Lemma verify_failed_leaves_store_unchanged_witness :
  post_api_payments_verify (Some "order_o1_1700000000001")
    failedWorld awaitingStore
  = (Some (mkResponse 200
             (BPayment (Some "failed") (Some ((2000 # 1) / 100)%Q)
                       (Some "order_o1_1700000000001"))),
     awaitingStore).
Proof.
  apply (verify_failed_leaves_store_unchanged
           (Some "order_o1_1700000000001") failedWorld awaitingStore
           (mkPaymentData (Some "failed") (Some (2000 # 1))
                          (Some "order_o1_1700000000001"))
           eq_refl eq_refl).
Defined.

(** C3 (as stated) fails: the order [awaitingOrder] awaits payment under
    the reference for which the gateway reports [failed], and after the
    verify handler its [paymentStatus] is still [pending], not [failed]. *)
Lemma verify_failed_does_not_record_failure :
  findByPaymentReference (Some "order_o1_1700000000001") awaitingStore
    = Some awaitingOrder /\
  paystackVerify failedWorld (Some "order_o1_1700000000001")
    = Some (Some (mkPaymentData (Some "failed") (Some (2000 # 1))
                                (Some "order_o1_1700000000001"))) /\
  orders (snd (post_api_payments_verify (Some "order_o1_1700000000001")
                 failedWorld awaitingStore))
    = [awaitingOrder] /\
  ord_paymentStatus awaitingOrder = pay_pending /\
  ord_paymentStatus awaitingOrder <> pay_failed.
Proof.
  repeat split. discriminate.
Qed.

(* ------------------------------------------------------------------ *)
(** ** C4: the success transition on an order that is already paid *)

Lemma verify_success (reference : option string) (w : World) (s : Store)
  (o : Order) :
  gatewayConfirms reference w ->
  findByPaymentReference reference s = Some o ->
  exists r, status r = 200%nat /\
            post_api_payments_verify reference w s
              = (Some r, storeAfterPaid (clock w 0) o s).
Proof.
  intros ((pd & Hgw & Hst) & H0 & H1) Hfind.
  rewrite post_api_payments_verify_run, Hgw, Hst, H0, Hfind, H1.
  exists (verifyReport pd). split; reflexivity.
Qed.

(** On an order that is already paid the transition changes [updatedAt]
    only. *)
Lemma markPaid_paid (now : Date) (o : Order) :
  ord_status o = paid -> ord_paymentStatus o = pay_success ->
  markPaid now o = set_updatedAt now o.
Proof.
  destruct o; simpl. intros -> ->. reflexivity.
Qed.

Lemma replaceOrder_twice (a b : Order) (l : list Order) :
  ord_id a = ord_id b ->
  replaceOrder b (replaceOrder a l) = replaceOrder b l.
Proof.
  intros Hid. unfold replaceOrder. rewrite map_map.
  apply map_ext. intros x.
  destruct (String.eqb (ord_id x) (ord_id a)) eqn:E.
  - rewrite Hid, String.eqb_refl.
    rewrite Hid in E. rewrite E. reflexivity.
  - reflexivity.
Qed.

(** After the write of a document that kept its payment reference, the
    lookup by that reference finds the written document. *)
Lemma findByPaymentReference_replaceOrder
  (reference : option string) (o o' : Order) (s : Store) :
  findByPaymentReference reference s = Some o ->
  ord_id o' = ord_id o ->
  ord_paymentReference o' = ord_paymentReference o ->
  findByPaymentReference reference
    (mkStore (customers s) (replaceOrder o' (orders s))) = Some o'.
Proof.
  unfold findByPaymentReference. cbn [orders].
  intros Hfind Hid Href.
  assert (Hm : JS.strictEq (ord_paymentReference o') reference = true).
  { apply find_some in Hfind. rewrite Href. apply Hfind. }
  induction (orders s) as [| x l IH]; [discriminate |].
  simpl in *.
  destruct (String.eqb (ord_id x) (ord_id o')) eqn:E.
  - rewrite Hm. reflexivity.
  - destruct (JS.strictEq (ord_paymentReference x) reference) eqn:Ex.
    + inversion Hfind; subst x.
      rewrite Hid, String.eqb_refl in E. discriminate.
    + apply IH. exact Hfind.
Qed.

Lemma storeAfterPaid_restamped (t u : Date) (o : Order) (s : Store) :
  ord_status o = paid -> ord_paymentStatus o = pay_success ->
  storeAfterPaid u (set_updatedAt t o) (restamped t o s) = restamped u o s.
Proof.
  intros Hs Hp. unfold storeAfterPaid, restamped. cbn [customers orders].
  rewrite markPaid_paid by (destruct o; assumption).
  rewrite replaceOrder_twice by (destruct o; reflexivity).
  destruct o; reflexivity.
Qed.

Lemma verifyAll_paid (reference : option string) (o : Order) (ws : list World) :
  ord_status o = paid -> ord_paymentStatus o = pay_success ->
  Forall (gatewayConfirms reference) ws ->
  forall (t : Date) (s : Store),
    findByPaymentReference reference s = Some o ->
    exists u,
      snd (verifyAll reference ws (restamped t o s)) = restamped u o s /\
      Forall (fun r => exists x, r = Some x /\ status x = 200%nat)
             (fst (verifyAll reference ws (restamped t o s))).
Proof.
  intros Hs Hp Hall. induction Hall as [| w ws Hw Hl IH]; intros t s Hfind.
  - exists t. split; [reflexivity | constructor].
  - assert (Hfind' : findByPaymentReference reference (restamped t o s)
                     = Some (set_updatedAt t o)).
    { apply findByPaymentReference_replaceOrder with (o := o);
        [assumption | destruct o; reflexivity | destruct o; reflexivity]. }
    destruct (verify_success reference w _ _ Hw Hfind') as (r & Hr & Hrun).
    rewrite storeAfterPaid_restamped in Hrun by assumption.
    cbn [verifyAll]. rewrite Hrun.
    destruct (IH (clock w 0) s Hfind) as (u & Hu & Hrs).
    destruct (verifyAll reference ws (restamped (clock w 0) o s)) as [rs s2].
    exists u. split; [exact Hu |].
    constructor; [exists r; auto | exact Hrs].
Qed.

(** The verify path is idempotent on an order that is already paid: one
    confirmed verify request is answered 200 and changes [updatedAt] of
    the order only, and so does any number of further ones. *)
Lemma verify_success_idempotent (reference : option string) (s : Store)
  (o : Order) (w : World) (ws : list World) :
  findByPaymentReference reference s = Some o ->
  ord_status o = paid ->
  ord_paymentStatus o = pay_success ->
  gatewayConfirms reference w ->
  Forall (gatewayConfirms reference) ws ->
  exists u,
    (exists r, post_api_payments_verify reference w s
                 = (Some r, restamped (clock w 0) o s) /\
               status r = 200%nat) /\
    Forall (fun r => exists x, r = Some x /\ status x = 200%nat)
           (fst (verifyAll reference (w :: ws) s)) /\
    snd (verifyAll reference (w :: ws) s) = restamped u o s /\
    findByPaymentReference reference (restamped u o s)
      = Some (set_updatedAt u o) /\
    ord_status (set_updatedAt u o) = paid /\
    ord_paymentStatus (set_updatedAt u o) = pay_success.
Proof.
  intros Hfind Hs Hp Hw Hl.
  destruct (verify_success reference w s o Hw Hfind) as (r & Hr & Hrun).
  assert (E : storeAfterPaid (clock w 0) o s = restamped (clock w 0) o s).
  { unfold storeAfterPaid, restamped. rewrite markPaid_paid by assumption.
    reflexivity. }
  rewrite E in Hrun.
  destruct (verifyAll_paid reference o ws Hs Hp Hl (clock w 0) s Hfind)
    as (u & Hu & Hrs).
  exists u. cbn [verifyAll]. rewrite Hrun.
  destruct (verifyAll reference ws (restamped (clock w 0) o s)) as [rs s2].
  cbn [fst snd] in *. subst s2.
  split; [exists r; auto |].
  split; [constructor; [exists r; auto | exact Hrs] |].
  split; [reflexivity |].
  split.
  - apply findByPaymentReference_replaceOrder with (o := o);
      [assumption | destruct o; reflexivity | destruct o; reflexivity].
  - destruct o; simpl in *. auto.
Qed.

(** C4 (code at the failing input).  [paidOrder] is paid and is the order
    found under its reference.  A confirmed verify request for it is
    answered 200 and changes its [updatedAt] only.  The webhook for it, a
    [charge.success] event with the signature the gateway sends, is
    answered with the error 500 and writes nothing, because
    [crypto.createHmac] throws in server.js. *)
Theorem paid_order_webhook_answers_500 :
  findByPaymentReference (Some "order_o1_1700000000001") paidStore
    = Some paidOrder /\
  ord_status paidOrder = paid /\ ord_paymentStatus paidOrder = pay_success /\
  (exists r,
     post_api_payments_verify (Some "order_o1_1700000000001")
       payingWorld paidStore
       = (Some r, restamped (clock payingWorld 0) paidOrder paidStore) /\
     status r = 200%nat) /\
  post_api_webhooks_paystack serverCrypto sampleStringify
    (sampleSignature (chargeSuccess "order_o1_1700000000001"))
    (chargeSuccess "order_o1_1700000000001") payingWorld paidStore
    = (Some (mkResponse 500 (BText "Webhook error")), paidStore).
Proof.
  split; [reflexivity |]. split; [reflexivity |]. split; [reflexivity |].
  split.
  - eexists. split; reflexivity.
  - apply post_api_webhooks_paystack_unbound.
Qed.

(* ------------------------------------------------------------------ *)
(** ** C6: customer resolution *)

(** With an exact match on the email the stored customer is returned as
    it is and nothing is written. *)
Lemma post_api_customers_existing (data : CustomerData) (w : World)
  (s : Store) (c : Customer) :
  dbRejects w 0 = false ->
  findByEmail (cd_email data) s = Some c ->
  post_api_customers data w s = (Some (customerCreated c), s).
Proof.
  intros H0 Hfind.
  unfold post_api_customers, tryCatch, getOrCreateCustomer.
  cbv beta iota delta [bind ret Customer_findOne_email dbRead].
  cbn [initSt db kDb]. rewrite H0, Hfind. reflexivity.
Qed.

(** Without an exact match a valid profile is inserted as a new customer,
    with a fresh [_id] and the current time as [createdAt]. *)
Lemma post_api_customers_new (data : CustomerData) (w : World) (s : Store)
  (c : Customer) :
  dbRejects w 0 = false ->
  dbRejects w 1 = false ->
  findByEmail (cd_email data) s = None ->
  validateCustomer (mkNewCustomer (objectId w 0) data (clock w 0)) = Some c ->
  post_api_customers data w s
  = (Some (customerCreated c), mkStore (customers s ++ [c]) (orders s)).
Proof.
  intros H0 H1 Hfind Hvalid.
  assert (Hemail : cd_email data = Some (cust_email c)).
  { unfold validateCustomer in Hvalid. cbn [nc_data nc_id nc_createdAt] in Hvalid.
    destruct (cd_email data) as [[| a e] |]; try discriminate.
    destruct (required (cd_firstName data)); try discriminate.
    destruct (required (cd_lastName data)); try discriminate.
    destruct (required (cd_phone data)); try discriminate.
    cbn [required] in Hvalid. injection Hvalid as <-. reflexivity. }
  assert (Hnodup : existsb (fun x => String.eqb (cust_email x) (cust_email c))
                           (customers s) = false).
  { destruct (existsb _ (customers s)) eqn:E; [| reflexivity].
    apply existsb_exists in E. destruct E as (x & Hin & Hx).
    apply (find_none _ _ Hfind) in Hin.
    rewrite Hemail in Hin. cbn [JS.strictEq] in Hin. congruence. }
  unfold post_api_customers, tryCatch, getOrCreateCustomer.
  cbv beta iota delta [bind ret Customer_findOne_email dbRead new_Customer
                       newObjectId Date_now Customer_save].
  cbn [initSt db kDb kClock kRandom kId]. rewrite H0, Hfind.
  cbn [db kDb kClock kRandom kId]. rewrite Hvalid.
  cbv beta iota delta [bind ret dbWrite].
  cbn [db kDb kClock kRandom kId]. rewrite H1, Hnodup. reflexivity.
Qed.

(** C6 (code at the failing input).  The store holds the customer
    [a@x.com]; a profile with the email [A@x.com], equal to it ignoring
    case, is looked up by exact match, not found, and inserted as a second
    customer, by POST /api/customers and by the customer resolution of
    POST /api/orders alike. *)
Theorem customer_lookup_is_case_sensitive :
  JS.toLowerCase "A@x.com" = JS.toLowerCase (cust_email sampleCustomer) /\
  post_api_customers upperCaseProfile tickingWorld (mkStore [sampleCustomer] [])
    = (Some (customerCreated upperCaseCustomer),
       mkStore [sampleCustomer; upperCaseCustomer] []) /\
  customers
    (snd (post_api_orders 1
            (mkOrderRequest (Some upperCaseProfile) [] (Some "food")
                            (Some (20 # 1)))
            tickingWorld (mkStore [sampleCustomer] [])))
    = [sampleCustomer; upperCaseCustomer].
Proof. repeat split. Qed.

(* ------------------------------------------------------------------ *)
(** ** Equality ignoring case *)

Lemma lowerChar_idempotent (a : ascii) :
  JS.lowerChar (JS.lowerChar a) = JS.lowerChar a.
Proof.
  destruct a as [[] [] [] [] [] [] [] []]; reflexivity.
Qed.

Lemma isUpper_bound (a : ascii) :
  JS.isUpper a = true -> (nat_of_ascii a + 32 < 256)%nat.
Proof.
  unfold JS.isUpper. cbv zeta. intros H.
  apply andb_true_iff in H. destruct H as [_ H].
  apply Nat.leb_le in H. lia.
Qed.

Lemma lowerChar_eq_iff (a b : ascii) :
  JS.lowerChar a = JS.lowerChar b <-> sameLetter a b.
Proof.
  split.
  - unfold JS.lowerChar, sameLetter.
    destruct (JS.isUpper a) eqn:Ea, (JS.isUpper b) eqn:Eb; intros H.
    + left. apply (f_equal nat_of_ascii) in H.
      rewrite !nat_ascii_embedding in H by (apply isUpper_bound; assumption).
      rewrite <- (ascii_nat_embedding a), <- (ascii_nat_embedding b).
      f_equal. lia.
    + right. left. split; [reflexivity |].
      unfold JS.lowerChar. rewrite Ea. congruence.
    + right. right. split; [reflexivity |].
      unfold JS.lowerChar. rewrite Eb. congruence.
    + left. exact H.
  - intros [-> | [[_ ->] | [_ ->]]].
    + reflexivity.
    + symmetry. apply lowerChar_idempotent.
    + apply lowerChar_idempotent.
Qed.

Lemma toLowerCase_eq_iff (s t : string) :
  JS.toLowerCase s = JS.toLowerCase t <-> equalIgnoringCase s t.
Proof.
  split.
  - revert t. induction s as [| a s IH]; intros [| b t] H;
      try discriminate; [constructor |].
    unfold JS.toLowerCase in H. cbn [JS.mapChars] in H.
    inversion H as [[Hc Hr]].
    constructor; [apply lowerChar_eq_iff; exact Hc | apply IH; exact Hr].
  - induction 1 as [| a b s t Hab _ IH]; [reflexivity |].
    apply lowerChar_eq_iff in Hab.
    unfold JS.toLowerCase in *. cbn [JS.mapChars].
    rewrite Hab, IH. reflexivity.
Qed.

(* ------------------------------------------------------------------ *)
(** ** What [findOne] returns *)

Lemma find_unique {A : Type} (f : A -> bool) (l : list A) (x : A) :
  In x l -> f x = true ->
  (forall y, In y l -> f y = true -> y = x) ->
  find f l = Some x.
Proof.
  intros Hin Hf Hu. destruct (find f l) as [y |] eqn:E.
  - apply find_some in E. destruct E as [Hy Hfy].
    f_equal. apply Hu; assumption.
  - exfalso. apply (find_none _ _ E) in Hin. congruence.
Qed.

Lemma find_absent {A : Type} (f : A -> bool) (l : list A) :
  (forall x, In x l -> f x = false) -> find f l = None.
Proof.
  intros H. destruct (find f l) as [y |] eqn:E; [| reflexivity].
  apply find_some in E. destruct E as [Hy Hfy].
  rewrite (H y Hy) in Hfy. discriminate.
Qed.

Lemma findByOrderCode_unique (code : string) (s : Store) (o : Order) :
  In o (orders s) -> ord_orderCode o = code ->
  (forall o', In o' (orders s) -> ord_orderCode o' = code -> o' = o) ->
  findByOrderCode (Some code) s = Some o.
Proof.
  intros Hin Hc Hu. apply find_unique; [exact Hin | |].
  - apply strictEq_Some_true. exact Hc.
  - intros y Hy Hfy. apply strictEq_Some_true in Hfy. apply Hu; assumption.
Qed.

Lemma findByOrderCode_absent (code : string) (s : Store) :
  (forall o, In o (orders s) -> ord_orderCode o <> code) ->
  findByOrderCode (Some code) s = None.
Proof.
  intros H. apply find_absent. intros o Ho.
  apply strictEq_false. intros E. injection E. apply H. exact Ho.
Qed.

Lemma findByEmail_unique (email : string) (s : Store) (c : Customer) :
  In c (customers s) -> cust_email c = email ->
  (forall c', In c' (customers s) -> cust_email c' = email -> c' = c) ->
  findByEmail (Some email) s = Some c.
Proof.
  intros Hin Hc Hu. apply find_unique; [exact Hin | |].
  - apply strictEq_Some_true. exact Hc.
  - intros y Hy Hfy. apply strictEq_Some_true in Hfy. apply Hu; assumption.
Qed.

Lemma findByEmail_absent (email : string) (s : Store) :
  (forall c, In c (customers s) -> cust_email c <> email) ->
  findByEmail (Some email) s = None.
Proof.
  intros H. apply find_absent. intros c Hc.
  apply strictEq_false. intros E. injection E. apply H. exact Hc.
Qed.

Lemma lookupCustomer_unique (s : Store) (i : ObjectId) (c : Customer) :
  In c (customers s) -> cust_id c = i ->
  (forall c', In c' (customers s) -> cust_id c' = i -> c' = c) ->
  lookupCustomer s i = Some c.
Proof.
  intros Hin Hc Hu. apply find_unique; [exact Hin | |].
  - apply String.eqb_eq. exact Hc.
  - intros y Hy Hfy. apply String.eqb_eq in Hfy. apply Hu; assumption.
Qed.

Lemma lookupCustomer_spec (s : Store) (i : ObjectId) :
  match lookupCustomer s i with
  | Some c => In c (customers s) /\ cust_id c = i
  | None => forall c, In c (customers s) -> cust_id c <> i
  end.
Proof.
  unfold lookupCustomer.
  destruct (find _ (customers s)) as [c |] eqn:E.
  - apply find_some in E. destruct E as [Hin He].
    split; [exact Hin | apply String.eqb_eq; exact He].
  - intros c Hin Heq. apply (find_none _ _ E) in Hin.
    apply String.eqb_neq in Hin. contradiction.
Qed.

(* ------------------------------------------------------------------ *)
(** ** C7 and C9: POST /api/orders/verify *)

Lemma post_api_orders_verify_code (email code : string) (w : World) (s : Store) :
  JS.truthy (Some email) = true ->
  JS.truthy (Some code) = true ->
  post_api_orders_verify (Some email) (Some code) w s =
  if dbRejects w 0 then (Some (mkResponse 500 (BException StoreError)), s)
  else match findByOrderCode (Some code) s with
       | None => (Some orderNotFound, s)
       | Some o =>
           match lookupCustomer s (ord_customer o) with
           | None => (Some (mkResponse 500 (BException TypeError)), s)
           | Some c =>
               if String.eqb (JS.toLowerCase (cust_email c))
                             (JS.toLowerCase email)
               then (Some (mkResponse 200 (BOrderVerified (o, Some c))), s)
               else (Some ownershipMismatch, s)
           end
       end.
Proof.
  intros He Hc.
  unfold post_api_orders_verify, tryCatch, verifyOrder.
  rewrite He, Hc.
  cbv beta iota delta [bind ret throw Order_findOne_orderCode_populate dbRead].
  cbn [initSt db kDb].
  destruct (dbRejects w 0); [reflexivity |].
  destruct (findByOrderCode (Some code) s) as [o |]; [| reflexivity].
  cbn [option_map populate].
  destruct (lookupCustomer s (ord_customer o)) as [c |]; [| reflexivity].
  destruct (String.eqb (JS.toLowerCase (cust_email c)) (JS.toLowerCase email));
    reflexivity.
Qed.

(** C7.  With an email and an order code in the request and the database
    up, the ownership check reads only.  It answers 404 when no stored
    order has the code.  When the order with the code refers to a stored
    customer and both emails are ASCII, it answers 403, not 404, if the
    customer's email differs from the supplied one ignoring case, and 200
    with the order if the two are equal ignoring case.  When the order
    refers to no stored customer the answer is 500. *)
Theorem verifyOwnership_outcomes (email code : string) (w : World) (s : Store) :
  JS.truthy (Some email) = true ->
  JS.truthy (Some code) = true ->
  dbRejects w 0 = false ->
  let out := post_api_orders_verify (Some email) (Some code) w s in
  snd out = s /\
  ((forall o, In o (orders s) -> ord_orderCode o <> code) ->
   fst out = Some orderNotFound) /\
  (forall o,
     In o (orders s) -> ord_orderCode o = code ->
     (forall o', In o' (orders s) -> ord_orderCode o' = code -> o' = o) ->
     (forall c,
        In c (customers s) -> cust_id c = ord_customer o ->
        (forall c', In c' (customers s) -> cust_id c' = ord_customer o ->
                    c' = c) ->
        JS.isAscii email = true -> JS.isAscii (cust_email c) = true ->
        (~ equalIgnoringCase (cust_email c) email ->
         fst out = Some ownershipMismatch) /\
        (equalIgnoringCase (cust_email c) email ->
         fst out = Some (mkResponse 200 (BOrderVerified (o, Some c))))) /\
     ((forall c, In c (customers s) -> cust_id c <> ord_customer o) ->
      fst out = Some (mkResponse 500 (BException TypeError)))).
Proof.
  intros He Hc H0. cbv zeta.
  rewrite post_api_orders_verify_code, H0 by assumption.
  split; [| split].
  - destruct (findByOrderCode (Some code) s) as [o |]; [| reflexivity].
    destruct (lookupCustomer s (ord_customer o)) as [c |]; [| reflexivity].
    destruct (String.eqb _ _); reflexivity.
  - intros Hnone. rewrite (findByOrderCode_absent _ _ Hnone). reflexivity.
  - intros o Ho Hco Huo.
    rewrite (findByOrderCode_unique _ _ o Ho Hco Huo). split.
    + intros c Hin Hid Huc _ _.
      rewrite (lookupCustomer_unique _ _ c Hin Hid Huc).
      destruct (String.eqb_spec (JS.toLowerCase (cust_email c))
                                (JS.toLowerCase email)) as [E | E];
        rewrite toLowerCase_eq_iff in E.
      * split; [intros Hne; contradiction | reflexivity].
      * split; [reflexivity | intros Heq; contradiction].
    + intros Hnoc.
      assert (Hs := lookupCustomer_spec s (ord_customer o)).
      destruct (lookupCustomer s (ord_customer o)) as [c |]; [| reflexivity].
      destruct Hs as [Hin Hid]. exfalso. exact (Hnoc c Hin Hid).
Qed.

(** The example of the specification among two customers: the customer of
    the order is [a@x.com] and the request says [A@x.com]; with another
    email the answer is 403, with an unknown code 404. *)
Lemma verifyOwnership_outcomes_witness :
  fst (post_api_orders_verify (Some "A@x.com") (Some "PH000000ABCD")
         tickingWorld twoGuestStore)
    = Some (mkResponse 200
              (BOrderVerified (awaitingOrder, Some sampleCustomer))) /\
  fst (post_api_orders_verify (Some "h@x.com") (Some "PH000000ABCD")
         tickingWorld twoGuestStore)
    = Some ownershipMismatch /\
  fst (post_api_orders_verify (Some "A@x.com") (Some "PH999999ZZZZ")
         tickingWorld twoGuestStore)
    = Some orderNotFound.
Proof.
  assert (Huo : forall o', In o' (orders twoGuestStore) ->
                  ord_orderCode o' = "PH000000ABCD" -> o' = awaitingOrder).
  { intros o' [<- | [<- | []]] H; [discriminate H | reflexivity]. }
  assert (Huc : forall c', In c' (customers twoGuestStore) ->
                  cust_id c' = ord_customer awaitingOrder ->
                  c' = sampleCustomer).
  { intros c' [<- | [<- | []]] H; [discriminate H | reflexivity]. }
  assert (Hin : In awaitingOrder (orders twoGuestStore))
    by (right; left; reflexivity).
  assert (Hc : In sampleCustomer (customers twoGuestStore))
    by (right; left; reflexivity).
  split; [| split].
  - destruct (verifyOwnership_outcomes "A@x.com" "PH000000ABCD"
                tickingWorld twoGuestStore eq_refl eq_refl eq_refl)
      as (_ & _ & H).
    destruct (H awaitingOrder Hin eq_refl Huo) as [H' _].
    destruct (H' sampleCustomer Hc eq_refl Huc eq_refl eq_refl) as [_ Heq].
    apply Heq. apply toLowerCase_eq_iff. reflexivity.
  - destruct (verifyOwnership_outcomes "h@x.com" "PH000000ABCD"
                tickingWorld twoGuestStore eq_refl eq_refl eq_refl)
      as (_ & _ & H).
    destruct (H awaitingOrder Hin eq_refl Huo) as [H' _].
    destruct (H' sampleCustomer Hc eq_refl Huc eq_refl eq_refl) as [Hne _].
    apply Hne. rewrite <- toLowerCase_eq_iff. vm_compute. discriminate.
  - destruct (verifyOwnership_outcomes "A@x.com" "PH999999ZZZZ"
                tickingWorld twoGuestStore eq_refl eq_refl eq_refl)
      as (_ & Hnone & _).
    apply Hnone.
    intros o [<- | [<- | []]]; vm_compute; discriminate.
Defined.

Lemma insertByCreatedAtDesc_perm (p : PopulatedOrder) (l : list PopulatedOrder) :
  Permutation (insertByCreatedAtDesc p l) (p :: l).
Proof.
  induction l as [| q l IH]; simpl.
  - apply Permutation_refl.
  - destruct (ord_createdAt (fst q) <=? ord_createdAt (fst p)).
    + apply Permutation_refl.
    + apply perm_trans with (q :: p :: l).
      * apply perm_skip. exact IH.
      * apply perm_swap.
Qed.

Lemma sortByCreatedAtDesc_perm (l : list PopulatedOrder) :
  Permutation (sortByCreatedAtDesc l) l.
Proof.
  induction l as [| p l IH]; simpl.
  - apply perm_nil.
  - apply perm_trans with (p :: sortByCreatedAtDesc l).
    + apply insertByCreatedAtDesc_perm.
    + apply perm_skip. exact IH.
Qed.

Lemma insertByCreatedAtDesc_sorted (p : PopulatedOrder) (l : list PopulatedOrder) :
  newestFirst l -> newestFirst (insertByCreatedAtDesc p l).
Proof.
  induction 1 as [| q l Hq Hl IH]; simpl.
  - constructor; constructor.
  - destruct (Z.leb_spec (ord_createdAt (fst q)) (ord_createdAt (fst p)))
      as [Hle | Hlt].
    + constructor.
      * constructor; [exact Hle |].
        eapply Forall_impl; [| exact Hq]. cbv beta. intros; lia.
      * constructor; assumption.
    + constructor; [| exact IH].
      eapply Permutation_Forall.
      * apply Permutation_sym, insertByCreatedAtDesc_perm.
      * constructor; [lia | exact Hq].
Qed.

Lemma sortByCreatedAtDesc_sorted (l : list PopulatedOrder) :
  newestFirst (sortByCreatedAtDesc l).
Proof.
  induction l as [| p l IH]; simpl.
  - constructor.
  - apply insertByCreatedAtDesc_sorted. exact IH.
Qed.

Lemma post_api_orders_verify_email (email : string) (code : option string)
  (w : World) (s : Store) :
  JS.truthy (Some email) = true ->
  JS.truthy code = false ->
  post_api_orders_verify (Some email) code w s =
  if dbRejects w 0 then (Some (mkResponse 500 (BException StoreError)), s)
  else match findByEmail (Some (JS.toLowerCase email)) s with
       | None => (Some noOrdersForEmail, s)
       | Some c =>
           if dbRejects w 1
           then (Some (mkResponse 500 (BException StoreError)), s)
           else (Some (mkResponse 200
                         (BOrders
                            (sortByCreatedAtDesc
                               (map (populate s)
                                    (ordersOfCustomer (cust_id c) s)))
                            c)), s)
       end.
Proof.
  intros He Hc.
  unfold post_api_orders_verify, tryCatch, verifyOrder.
  rewrite He, Hc.
  cbv beta iota delta [bind ret Customer_findOne_email Order_find_customer dbRead].
  cbn [initSt db kDb].
  destruct (dbRejects w 0); [reflexivity |].
  destruct (findByEmail (Some (JS.toLowerCase email)) s) as [c |];
    [| reflexivity].
  cbn [db kDb kClock kRandom kId].
  destruct (dbRejects w 1); reflexivity.
Qed.

Lemma sortedOrders_fst (s : Store) (i : ObjectId) :
  Permutation
    (map fst (sortByCreatedAtDesc (map (populate s) (ordersOfCustomer i s))))
    (ordersOfCustomer i s).
Proof.
  apply perm_trans with (map fst (map (populate s) (ordersOfCustomer i s))).
  - apply Permutation_map. apply sortByCreatedAtDesc_perm.
  - rewrite map_map. cbn [populate fst]. rewrite map_id.
    apply Permutation_refl.
Qed.

(** C9.  With an ASCII email and no order code (absent or empty) and the
    database up, POST /api/orders/verify reads only and never answers 400.
    It answers 404 when no customer is stored under the lower-cased email.
    Otherwise it answers 200 with the customer stored under that email and
    a list, newest first, that holds the stored orders referring to the
    customer, each exactly once, and no other order; every listed order
    comes with a stored customer whose id the order carries. *)
Theorem verify_without_code_lists_orders (email : string)
  (code : option string) (w : World) (s : Store) :
  JS.truthy (Some email) = true ->
  JS.truthy code = false ->
  JS.isAscii email = true ->
  dbRejects w 0 = false ->
  dbRejects w 1 = false ->
  let out := post_api_orders_verify (Some email) code w s in
  snd out = s /\
  (forall r, fst out = Some r -> status r <> 400%nat) /\
  ((forall c, In c (customers s) -> cust_email c <> JS.toLowerCase email) ->
   fst out = Some noOrdersForEmail) /\
  (forall c,
     In c (customers s) -> cust_email c = JS.toLowerCase email ->
     (forall c', In c' (customers s) ->
                 cust_email c' = JS.toLowerCase email -> c' = c) ->
     exists l,
       fst out = Some (mkResponse 200 (BOrders l c)) /\
       newestFirst l /\
       Permutation l (map (populate s) (ordersOfCustomer (cust_id c) s)) /\
       (forall o, In o (map fst l) <->
                  In o (orders s) /\ ord_customer o = cust_id c) /\
       (forall o x, In (o, x) l ->
          exists c', x = Some c' /\ In c' (customers s) /\
                     cust_id c' = ord_customer o)).
Proof.
  intros He Hc _ H0 H1. cbv zeta.
  rewrite post_api_orders_verify_email, H0 by assumption.
  split; [| split; [| split]].
  - destruct (findByEmail (Some (JS.toLowerCase email)) s) as [c |];
      [rewrite H1 |]; reflexivity.
  - intros r.
    destruct (findByEmail (Some (JS.toLowerCase email)) s) as [c |];
      [rewrite H1 |]; intros Hr; injection Hr as <-; discriminate.
  - intros Hnone. rewrite (findByEmail_absent _ _ Hnone). reflexivity.
  - intros c Hin Hce Hu.
    rewrite (findByEmail_unique _ _ c Hin Hce Hu), H1.
    eexists. split; [reflexivity |].
    split; [apply sortByCreatedAtDesc_sorted |].
    assert (Hp := sortByCreatedAtDesc_perm
                    (map (populate s) (ordersOfCustomer (cust_id c) s))).
    split; [exact Hp |].
    assert (Hm := sortedOrders_fst s (cust_id c)).
    assert (Hf : forall o, In o (ordersOfCustomer (cust_id c) s) <->
                           In o (orders s) /\ ord_customer o = cust_id c).
    { intros o. unfold ordersOfCustomer.
      rewrite filter_In, String.eqb_eq. reflexivity. }
    split.
    + intros o. rewrite <- Hf. split; intros Ho.
      * eapply Permutation_in; [exact Hm | exact Ho].
      * eapply Permutation_in; [apply Permutation_sym; exact Hm | exact Ho].
    + intros o x Hox.
      apply (Permutation_in _ Hp) in Hox. apply in_map_iff in Hox.
      destruct Hox as (o' & Hpo & Ho'). unfold populate in Hpo.
      injection Hpo as -> <-. apply Hf in Ho'. destruct Ho' as [_ Hcu].
      assert (Hs := lookupCustomer_spec s (ord_customer o)).
      destruct (lookupCustomer s (ord_customer o)) as [c' |].
      * exists c'. split; [reflexivity | exact Hs].
      * exfalso. apply (Hs c Hin). symmetry. exact Hcu.
Qed.

(** Among two customers, the orders of [a@x.com] asked for as [A@x.com],
    and an email nobody is stored under. *)
Lemma verify_without_code_lists_orders_witness :
  fst (post_api_orders_verify (Some "A@x.com") None tickingWorld twoGuestStore)
    = Some (mkResponse 200
              (BOrders [(awaitingOrder, Some sampleCustomer)] sampleCustomer)) /\
  fst (post_api_orders_verify (Some "nobody@x.com") (Some "")
         tickingWorld twoGuestStore)
    = Some noOrdersForEmail.
Proof.
  split.
  - destruct (verify_without_code_lists_orders "A@x.com" None
                tickingWorld twoGuestStore eq_refl eq_refl eq_refl eq_refl
                eq_refl)
      as (_ & _ & _ & H).
    assert (Hu : forall c', In c' (customers twoGuestStore) ->
                   cust_email c' = JS.toLowerCase "A@x.com" ->
                   c' = sampleCustomer).
    { intros c' [<- | [<- | []]] Hc; [discriminate Hc | reflexivity]. }
    destruct (H sampleCustomer (or_intror (or_introl eq_refl)) eq_refl Hu)
      as (l & Hl & _ & Hp & _).
    change (Permutation l [(awaitingOrder, Some sampleCustomer)]) in Hp.
    apply Permutation_sym, Permutation_length_1_inv in Hp.
    rewrite Hl, Hp. reflexivity.
  - destruct (verify_without_code_lists_orders "nobody@x.com" (Some "")
                tickingWorld twoGuestStore eq_refl eq_refl eq_refl eq_refl
                eq_refl)
      as (_ & _ & Hnone & _).
    apply Hnone.
    intros c [<- | [<- | []]]; vm_compute; discriminate.
Defined.

(* ------------------------------------------------------------------ *)
(** ** C10: POST /api/payments/initialize *)

Lemma post_api_payments_initialize_run (orderId : option ObjectId)
  (email : option string) (w : World) (s : Store) :
  post_api_payments_initialize orderId email w s =
  if castFails orderId then (Some (initFailure CastError), s)
  else if dbRejects w 0 then (Some (initFailure StoreError), s)
  else
    match findById orderId s with
    | None => (Some orderNotFound, s)
    | Some o =>
        match lookupCustomer s (ord_customer o) with
        | None => (Some (initFailure TypeError), s)
        | Some c =>
            match paystackInitialize w (paymentDataFor email w o c) with
            | None => (Some (initFailure AxiosError), s)
            | Some response =>
                if dbRejects w 1 then (Some (initFailure StoreError), s)
                else
                  match response with
                  | None =>
                      (Some (initFailure TypeError), storeAfterInit w o s)
                  | Some d =>
                      (Some (mkResponse 200
                               (BInitialized (id_authorization_url d)
                                             (id_access_code d)
                                             (referenceFor o (clock w 0)))),
                       storeAfterInit w o s)
                  end
            end
        end
    end.
Proof.
  unfold post_api_payments_initialize, tryCatch, initializePayment,
    Order_findById_populate.
  destruct (castFails orderId); [reflexivity |].
  cbv beta iota delta [bind ret throw world dbRead
                       Date_now axios_post_initialize Order_save dbWrite].
  cbn [initSt db kDb kClock kRandom kId].
  destruct (dbRejects w 0); [reflexivity |].
  destruct (findById orderId s) as [o |]; [| reflexivity].
  cbn [option_map populate].
  destruct (lookupCustomer s (ord_customer o)) as [c |].
  - unfold paymentDataFor, referenceFor.
    destruct email as [e |]; [destruct (JS.truthy (Some e)) |];
      cbn [db kDb kClock kRandom kId];
      (destruct (paystackInitialize w _) as [response |]; [| reflexivity]);
      cbn [db kDb kClock kRandom kId];
      (destruct (dbRejects w 1); [reflexivity |]);
      destruct response; reflexivity.
  - destruct email as [e |]; [destruct (JS.truthy (Some e)) |]; reflexivity.
Qed.

Lemma findById_replaceOrder (orderId : option ObjectId) (o o' : Order)
  (s : Store) :
  findById orderId s = Some o ->
  ord_id o' = ord_id o ->
  findById orderId (mkStore (customers s) (replaceOrder o' (orders s)))
    = Some o'.
Proof.
  unfold findById. destruct orderId as [x |]; [| discriminate].
  destruct (castObjectId x) as [i |]; [| discriminate].
  unfold replaceOrder. cbn [orders]. intros Hfind Hid.
  assert (Hm : String.eqb (ord_id o') i = true).
  { apply find_some in Hfind. rewrite Hid. apply Hfind. }
  induction (orders s) as [| y l IH]; [discriminate |].
  cbn [find map] in *.
  destruct (String.eqb (ord_id y) (ord_id o')) eqn:E.
  - rewrite Hm. reflexivity.
  - destruct (String.eqb (ord_id y) i) eqn:Ex.
    + injection Hfind as <-.
      rewrite Hid, String.eqb_refl in E. discriminate.
    + apply IH. exact Hfind.
Qed.

(** An order other than the one written is left as it is. *)
Lemma replaceOrder_other (o x : Order) (l : list Order) :
  In x l -> ord_id x <> ord_id o -> In x (replaceOrder o l).
Proof.
  intros Hin Hne. unfold replaceOrder. apply in_map_iff.
  exists x. split; [| exact Hin].
  apply String.eqb_neq in Hne. rewrite Hne. reflexivity.
Qed.

(** C10.  Whenever POST /api/payments/initialize answers 200, the order
    [o] found under [orderId] has been written back with its
    [paymentReference] replaced by the reference generated in this call
    from its [_id] and the current clock reading, whatever the
    [paymentReference] held before, and with every other field as it was;
    the answer carries that reference and the customers are untouched. *)
Theorem initialize_overwrites_paymentReference
  (orderId : option ObjectId) (email : option string) (w : World)
  (s s' : Store) (r : Response) :
  post_api_payments_initialize orderId email w s = (Some r, s') ->
  status r = 200%nat ->
  exists o url code,
    let reference := "order_" ++ ord_id o ++ "_" ++ JS.toString (clock w 0) in
    let o' := set_paymentReference reference o in
    findById orderId s = Some o /\
    r = mkResponse 200 (BInitialized url code reference) /\
    s' = mkStore (customers s) (replaceOrder o' (orders s)) /\
    findById orderId s' = Some o' /\
    ord_paymentReference o' = Some reference /\
    ord_id o' = ord_id o /\ ord_customer o' = ord_customer o /\
    ord_orderCode o' = ord_orderCode o /\ ord_type o' = ord_type o /\
    ord_items o' = ord_items o /\ ord_totalAmount o' = ord_totalAmount o /\
    ord_status o' = ord_status o /\
    ord_paymentStatus o' = ord_paymentStatus o /\
    ord_createdAt o' = ord_createdAt o /\ ord_updatedAt o' = ord_updatedAt o.
Proof.
  rewrite post_api_payments_initialize_run. intros Hrun H200.
  destruct (castFails orderId); [crush_cases |].
  destruct (dbRejects w 0); [crush_cases |].
  destruct (findById orderId s) as [o |] eqn:Ef; [| crush_cases].
  destruct (lookupCustomer s (ord_customer o)) as [c |]; [| crush_cases].
  destruct (paystackInitialize w _) as [response |]; [| crush_cases].
  destruct (dbRejects w 1); [crush_cases |].
  destruct response as [d |]; [| crush_cases].
  injection Hrun as <- <-.
  exists o, (id_authorization_url d), (id_access_code d). cbv zeta.
  split; [reflexivity |]. split; [reflexivity |]. split; [reflexivity |].
  split.
  - apply (findById_replaceOrder orderId o); [exact Ef | reflexivity].
  - repeat split.
Qed.

(** The payment of [hexOrder] is initialized a second time, its id
    written in capitals in the request: the reference set by the first
    initialization is overwritten. *)
Lemma initialize_overwrites_paymentReference_witness :
  ord_paymentReference hexOrder
    = Some "order_65f0c0ffee65f0c0ffee0001_1700000000001" /\
  exists o,
    findById (Some "65F0C0FFEE65F0C0FFEE0001")
      (snd (post_api_payments_initialize (Some "65F0C0FFEE65F0C0FFEE0001")
              None payingWorld hexStore)) = Some o /\
    ord_paymentReference o
      = Some "order_65f0c0ffee65f0c0ffee0001_1700000123456".
Proof.
  split; [reflexivity |].
  destruct (initialize_overwrites_paymentReference
              (Some "65F0C0FFEE65F0C0FFEE0001") None
              payingWorld hexStore _ _ eq_refl eq_refl)
    as (o & url & code & Hfind & _ & _ & Hfind' & Href & _).
  injection Hfind as <-.
  eexists. split; [exact Hfind' | exact Href].
Defined.

(* ------------------------------------------------------------------ *)
(** ** Computations that keep a property of the store *)

Lemma keeps_ret {A : Type} (I : Store -> Prop) (a : A) : keeps I (ret a).
Proof. intros w st H. exact H. Qed.

Lemma keeps_throw {A : Type} (I : Store -> Prop) (e : Exn) :
  keeps I (@throw A e).
Proof. intros w st H. exact H. Qed.

Lemma keeps_spin {A : Type} (I : Store -> Prop) : keeps I (@spin A).
Proof. intros w st H. exact H. Qed.

Lemma keeps_world (I : Store -> Prop) : keeps I world.
Proof. intros w st H. exact H. Qed.

Lemma keeps_Date_now (I : Store -> Prop) : keeps I Date_now.
Proof. intros w st H. exact H. Qed.

Lemma keeps_Math_random (I : Store -> Prop) : keeps I Math_random_toString36.
Proof. intros w st H. exact H. Qed.

Lemma keeps_newObjectId (I : Store -> Prop) : keeps I newObjectId.
Proof. intros w st H. exact H. Qed.

Lemma keeps_dbRead {A : Type} (I : Store -> Prop) (f : Store -> A) :
  keeps I (dbRead f).
Proof.
  intros w st H. unfold dbRead. destruct (dbRejects w (kDb st)); exact H.
Qed.

Lemma keeps_dbWrite (I : Store -> Prop) (f : Store -> Exn + Store) :
  (forall s s', I s -> f s = inr s' -> I s') -> keeps I (dbWrite f).
Proof.
  intros Hf w st H. unfold dbWrite.
  destruct (dbRejects w (kDb st)); [exact H |].
  destruct (f (db st)) as [e | s'] eqn:E; [exact H |].
  exact (Hf _ _ H E).
Qed.

Lemma keeps_bind {A B : Type} (I : Store -> Prop) (m : M A) (k : A -> M B) :
  keeps I m -> (forall a, keeps I (k a)) -> keeps I (bind m k).
Proof.
  intros Hm Hk w st H. unfold bind.
  specialize (Hm w st H).
  destruct (m w st) as [[a | e |] st1]; cbn [snd] in *;
    [apply Hk; exact Hm | exact Hm | exact Hm].
Qed.

Lemma keeps_tryCatch (I : Store -> Prop) (m : M Response)
  (handler : Exn -> Response) (w : World) (s : Store) :
  keeps I m -> I s -> I (snd (tryCatch m handler w s)).
Proof.
  intros Hm H. unfold tryCatch.
  specialize (Hm w (initSt s) H).
  destruct (m w (initSt s)) as [[r | e |] st]; exact Hm.
Qed.

(** Composition of the rules above. *)
Ltac keeps_tac :=
  repeat first
    [ apply keeps_ret | apply keeps_throw | apply keeps_spin
    | apply keeps_world | apply keeps_Date_now | apply keeps_Math_random
    | apply keeps_newObjectId | apply keeps_dbRead
    | apply keeps_bind; [| intros ?]
    | match goal with
      | |- keeps _ (match ?x with _ => _ end) => destruct x
      | |- keeps _ (if ?x then _ else _) => destruct x
      end ].

(* ------------------------------------------------------------------ *)
(** ** The lookups never write *)

(** X8.  The three lookup handlers leave the store exactly as it was, for
    every request and in every world, failures included. *)
Theorem lookups_never_write (w : World) (s : Store) :
  (forall email, snd (get_api_orders_customer email w s) = s) /\
  (forall orderCode, snd (get_api_orders_track orderCode w s) = s) /\
  (forall email orderCode,
     snd (post_api_orders_verify email orderCode w s) = s).
Proof.
  split; [| split]; intros;
    apply (keeps_tryCatch (fun s' => s' = s)); try reflexivity.
  - unfold Customer_findOne_email, Order_find_customer. keeps_tac.
  - unfold Order_findOne_orderCode_populate. keeps_tac.
  - unfold verifyOrder, Order_findOne_orderCode_populate,
      Customer_findOne_email, Order_find_customer.
    keeps_tac.
Qed.
(* ------------------------------------------------------------------ *)
(** ** GET /api/orders/track/:orderCode and GET /api/orders/customer/:email *)

Lemma get_api_orders_track_run (orderCode : string) (w : World) (s : Store) :
  get_api_orders_track orderCode w s =
  if dbRejects w 0 then (Some lookupFailure, s)
  else match findByOrderCode (Some orderCode) s with
       | None => (Some orderNotFound, s)
       | Some o => (Some (mkResponse 200 (BOrder (populate s o))), s)
       end.
Proof.
  unfold get_api_orders_track, tryCatch.
  cbv beta iota delta [bind ret Order_findOne_orderCode_populate dbRead].
  cbn [initSt db kDb].
  destruct (dbRejects w 0); [reflexivity |].
  destruct (findByOrderCode (Some orderCode) s); reflexivity.
Qed.

Lemma findByOrderCode_Some (code : string) (s : Store) (o : Order) :
  findByOrderCode (Some code) s = Some o ->
  In o (orders s) /\ ord_orderCode o = code.
Proof.
  unfold findByOrderCode. intros H. apply find_some in H.
  destruct H as [Hin Heq]. split; [exact Hin |].
  apply strictEq_Some_true. exact Heq.
Qed.

Lemma findByOrderCode_None (code : string) (s : Store) :
  findByOrderCode (Some code) s = None <->
  (forall o, In o (orders s) -> ord_orderCode o <> code).
Proof.
  unfold findByOrderCode. split.
  - intros H o Hin Heq. apply (find_none _ _ H) in Hin.
    apply strictEq_false in Hin. congruence.
  - intros H. destruct (find _ (orders s)) as [o |] eqn:E; [| reflexivity].
    apply find_some in E. destruct E as [Hin Heq].
    apply strictEq_Some_true in Heq. exfalso. exact (H o Hin Heq).
Qed.

(** X9.  Tracking by code, with the database up: the answer is 200 exactly when
    some stored order carries the code, and then it shows a stored order
    with that code together with its customer, whoever asks; otherwise it
    is 404. *)
Theorem track_by_code (orderCode : string) (w : World) (s : Store) :
  dbRejects w 0 = false ->
  exists r,
    fst (get_api_orders_track orderCode w s) = Some r /\
    ((exists o, In o (orders s) /\ ord_orderCode o = orderCode /\
                r = mkResponse 200
                      (BOrder (o, lookupCustomer s (ord_customer o)))) \/
     ((forall o, In o (orders s) -> ord_orderCode o <> orderCode) /\
      r = orderNotFound)).
Proof.
  intros H0. rewrite get_api_orders_track_run, H0.
  destruct (findByOrderCode (Some orderCode) s) as [o |] eqn:E.
  - eexists. split; [reflexivity |]. left.
    apply findByOrderCode_Some in E. destruct E as [Hin Hc].
    exists o. repeat split; assumption.
  - eexists. split; [reflexivity |]. right.
    split; [apply findByOrderCode_None; exact E | reflexivity].
Qed.

Lemma track_by_code_witness :
  fst (get_api_orders_track "PH000000ABCD" tickingWorld awaitingStore)
    = Some (mkResponse 200 (BOrder (awaitingOrder, Some sampleCustomer))) /\
  fst (get_api_orders_track "PH999999ZZZZ" tickingWorld awaitingStore)
    = Some orderNotFound.
Proof.
  split.
  - destruct (track_by_code "PH000000ABCD" tickingWorld awaitingStore eq_refl)
      as (r & Hr & [(o & Hin & Hc & ->) | (Hnone & ->)]).
    + rewrite Hr. destruct Hin as [<- | []]. reflexivity.
    + exfalso. apply (Hnone awaitingOrder); [left |]; reflexivity.
  - destruct (track_by_code "PH999999ZZZZ" tickingWorld awaitingStore eq_refl)
      as (r & Hr & [(o & Hin & Hc & ->) | (Hnone & ->)]).
    + exfalso. destruct Hin as [<- | []]. discriminate.
    + exact Hr.
Defined.

Lemma get_api_orders_customer_run (email : string) (w : World) (s : Store) :
  get_api_orders_customer email w s =
  if dbRejects w 0 then (Some lookupFailure, s)
  else match findByEmail (Some email) s with
       | None => (Some noOrdersForEmail, s)
       | Some c =>
           if dbRejects w 1 then (Some lookupFailure, s)
           else (Some (mkResponse 200
                         (BOrders
                            (sortByCreatedAtDesc
                               (map (populate s)
                                    (ordersOfCustomer (cust_id c) s)))
                            c)), s)
       end.
Proof.
  unfold get_api_orders_customer, tryCatch.
  cbv beta iota delta [bind ret Customer_findOne_email Order_find_customer dbRead].
  cbn [initSt db kDb].
  destruct (dbRejects w 0); [reflexivity |].
  destruct (findByEmail (Some email) s) as [c |]; [| reflexivity].
  cbn [db kDb kClock kRandom kId].
  destruct (dbRejects w 1); reflexivity.
Qed.

Lemma findByEmail_Some (email : string) (s : Store) (c : Customer) :
  findByEmail (Some email) s = Some c ->
  In c (customers s) /\ cust_email c = email.
Proof.
  unfold findByEmail. intros H. apply find_some in H.
  destruct H as [Hin Heq]. split; [exact Hin |].
  apply strictEq_Some_true. exact Heq.
Qed.

Lemma findByEmail_None (email : string) (s : Store) :
  findByEmail (Some email) s = None <->
  (forall c, In c (customers s) -> cust_email c <> email).
Proof.
  unfold findByEmail. split.
  - intros H c Hin Heq. apply (find_none _ _ H) in Hin.
    apply strictEq_false in Hin. congruence.
  - intros H. destruct (find _ (customers s)) as [c |] eqn:E; [| reflexivity].
    apply find_some in E. destruct E as [Hin Heq].
    apply strictEq_Some_true in Heq. exfalso. exact (H c Hin Heq).
Qed.

Lemma In_ordersOfCustomer (i : ObjectId) (s : Store) (o : Order) :
  In o (ordersOfCustomer i s) <-> In o (orders s) /\ ord_customer o = i.
Proof.
  unfold ordersOfCustomer. rewrite filter_In, String.eqb_eq. reflexivity.
Qed.

(** X10.  The list by email, with the database up: the customer is looked up by
    the email exactly as given; without one the answer is 404, otherwise
    it is 200 with that customer and, newest first, the stored orders
    that refer to the customer, each exactly once and none of another
    customer. *)
Theorem customer_orders_by_exact_email (email : string) (w : World) (s : Store) :
  dbRejects w 0 = false ->
  dbRejects w 1 = false ->
  exists r,
    fst (get_api_orders_customer email w s) = Some r /\
    ((exists c l,
        In c (customers s) /\ cust_email c = email /\
        r = mkResponse 200 (BOrders l c) /\
        newestFirst l /\
        Permutation l (map (populate s) (ordersOfCustomer (cust_id c) s)) /\
        (forall o, In o (map fst l) <->
                   In o (orders s) /\ ord_customer o = cust_id c)) \/
     ((forall c, In c (customers s) -> cust_email c <> email) /\
      r = noOrdersForEmail)).
Proof.
  intros H0 H1. rewrite get_api_orders_customer_run, H0.
  destruct (findByEmail (Some email) s) as [c |] eqn:E.
  - rewrite H1. eexists. split; [reflexivity |]. left.
    apply findByEmail_Some in E. destruct E as [Hin He].
    exists c, (sortByCreatedAtDesc
                 (map (populate s) (ordersOfCustomer (cust_id c) s))).
    split; [exact Hin |]. split; [exact He |]. split; [reflexivity |].
    split; [apply sortByCreatedAtDesc_sorted |].
    assert (Hp := sortByCreatedAtDesc_perm
                    (map (populate s) (ordersOfCustomer (cust_id c) s))).
    split; [exact Hp |].
    intros o. rewrite <- In_ordersOfCustomer.
    assert (Hm : Permutation
                   (map fst (sortByCreatedAtDesc
                      (map (populate s) (ordersOfCustomer (cust_id c) s))))
                   (ordersOfCustomer (cust_id c) s)).
    { apply perm_trans with
        (map fst (map (populate s) (ordersOfCustomer (cust_id c) s))).
      - apply Permutation_map. exact Hp.
      - rewrite map_map. cbn [populate fst]. rewrite map_id.
        apply Permutation_refl. }
    split; intros Ho.
    + eapply Permutation_in; [exact Hm | exact Ho].
    + eapply Permutation_in; [apply Permutation_sym; exact Hm | exact Ho].
  - eexists. split; [reflexivity |]. right.
    split; [apply findByEmail_None; exact E | reflexivity].
Qed.

Lemma customer_orders_by_exact_email_witness :
  fst (get_api_orders_customer "a@x.com" tickingWorld awaitingStore)
    = Some (mkResponse 200
              (BOrders [(awaitingOrder, Some sampleCustomer)] sampleCustomer)) /\
  fst (get_api_orders_customer "A@x.com" tickingWorld awaitingStore)
    = Some noOrdersForEmail.
Proof.
  split.
  - destruct (customer_orders_by_exact_email "a@x.com" tickingWorld
                awaitingStore eq_refl eq_refl)
      as (r & Hr & [(c & l & Hin & He & -> & _ & Hp & _) | (Hnone & ->)]).
    + destruct Hin as [<- | []].
      change (Permutation l [(awaitingOrder, Some sampleCustomer)]) in Hp.
      apply Permutation_sym, Permutation_length_1_inv in Hp.
      rewrite Hr, Hp. reflexivity.
    + exfalso. apply (Hnone sampleCustomer); [left |]; reflexivity.
  - destruct (customer_orders_by_exact_email "A@x.com" tickingWorld
                awaitingStore eq_refl eq_refl)
      as (r & Hr & [(c & l & Hin & He & _) | (_ & ->)]).
    + exfalso. destruct Hin as [<- | []]. discriminate.
    + exact Hr.
Defined.

(** X11.  A customer stored under an ASCII email that is not in lower case,
    with no customer stored under the lower-cased email, is served by the
    list by email but answered 404 by POST /api/orders/verify without
    order code, however the email is written in the request. *)
Theorem mixed_case_customer_not_listed (e : string) (code : option string)
  (c : Customer) (w : World) (s : Store) :
  JS.truthy (Some e) = true ->
  JS.truthy code = false ->
  JS.isAscii e = true ->
  dbRejects w 0 = false ->
  dbRejects w 1 = false ->
  In c (customers s) -> cust_email c = e ->
  (forall c', In c' (customers s) -> cust_email c' <> JS.toLowerCase e) ->
  (exists c' l,
     In c' (customers s) /\ cust_email c' = e /\
     fst (get_api_orders_customer e w s)
       = Some (mkResponse 200 (BOrders l c'))) /\
  (forall e', JS.isAscii e' = true -> equalIgnoringCase e' e ->
     fst (post_api_orders_verify (Some e') code w s) = Some noOrdersForEmail).
Proof.
  intros He Hc _ H0 H1 Hin Hce Hlower. split.
  - rewrite get_api_orders_customer_run, H0.
    destruct (findByEmail (Some e) s) as [c' |] eqn:Ef.
    + rewrite H1. apply findByEmail_Some in Ef. destruct Ef as [Hin' He'].
      exists c'. eexists. split; [exact Hin' |]. split; [exact He' |].
      reflexivity.
    + exfalso. rewrite findByEmail_None in Ef. exact (Ef c Hin Hce).
  - intros e' _ Heq.
    assert (He' : JS.truthy (Some e') = true).
    { destruct Heq; [discriminate He | reflexivity]. }
    apply toLowerCase_eq_iff in Heq.
    rewrite post_api_orders_verify_email, H0 by assumption.
    rewrite Heq, (findByEmail_absent _ _ Hlower). reflexivity.
Qed.

Lemma mixed_case_customer_not_listed_witness :
  (exists c' l,
     In c' [upperCaseCustomer] /\ cust_email c' = "A@x.com" /\
     fst (get_api_orders_customer "A@x.com" tickingWorld
            (mkStore [upperCaseCustomer] []))
       = Some (mkResponse 200 (BOrders l c'))) /\
  fst (post_api_orders_verify (Some "A@x.com") None tickingWorld
         (mkStore [upperCaseCustomer] []))
    = Some noOrdersForEmail /\
  fst (post_api_orders_verify (Some "a@x.com") None tickingWorld
         (mkStore [upperCaseCustomer] []))
    = Some noOrdersForEmail.
Proof.
  assert (Hlower : forall c', In c' (customers (mkStore [upperCaseCustomer] [])) ->
            cust_email c' <> JS.toLowerCase "A@x.com").
  { intros c' [<- | []]. vm_compute. discriminate. }
  destruct (mixed_case_customer_not_listed "A@x.com" None upperCaseCustomer
              tickingWorld (mkStore [upperCaseCustomer] [])
              eq_refl eq_refl eq_refl eq_refl eq_refl
              (or_introl eq_refl) eq_refl Hlower)
    as [Hlist Hverify].
  split; [exact Hlist |]. split.
  - apply Hverify; [reflexivity |]. apply toLowerCase_eq_iff. reflexivity.
  - apply Hverify; [reflexivity |]. apply toLowerCase_eq_iff. reflexivity.
Defined.

(* ------------------------------------------------------------------ *)
(** ** The generated code and the code the loop returns *)

Lemma substring_all (s : string) (m : nat) :
  (String.length s <= m)%nat -> String.substring 0 m s = s.
Proof.
  revert m. induction s as [| c s IH]; intros [| m] H; simpl in *;
    try reflexivity; try lia.
  rewrite IH by lia. reflexivity.
Qed.

Lemma substring_suffix (s : string) (n m : nat) :
  (String.length s <= n + m)%nat ->
  exists pre, s = pre ++ String.substring n m s.
Proof.
  revert n. induction s as [| c s IH]; intros n H.
  - exists "". destruct n, m; reflexivity.
  - destruct n as [| n].
    + exists "". rewrite substring_all by exact H. reflexivity.
    + destruct (IH n) as [pre Hpre]; [simpl in H; lia |].
      exists (String c pre). simpl. rewrite <- Hpre. reflexivity.
Qed.

Lemma upperChar_not_lower (c : ascii) : JS.isLower (JS.upperChar c) = false.
Proof.
  destruct c as [[] [] [] [] [] [] [] []]; reflexivity.
Qed.

Lemma toUpperCase_noLowerCase (s : string) : noLowerCase (JS.toUpperCase s).
Proof.
  unfold noLowerCase, JS.toUpperCase.
  induction s as [| a s IH]; intros c Hin; cbn in Hin.
  - contradiction.
  - destruct Hin as [<- | Hin]; [apply upperChar_not_lower | apply IH; exact Hin].
Qed.

(** X1.  Every generated code is [PH], then the last six characters of the
    decimal text of the clock (all of it when it is shorter), then at most
    four characters without lower-case letters: the characters 2 to 5 of
    the base-36 text of the random number, in upper case.  So a code has
    2 to 12 characters, and 12 exactly when the clock text has at least 6
    and the random text at least 6 characters. *)
Theorem generateOrderCode_shape (w : World) (st : St) :
  exists t r pre,
    fst (generateOrderCode w st) = Ok ("PH" ++ t ++ r) /\
    JS.toString (clock w (kClock st)) = pre ++ t /\
    String.length t
      = Nat.min 6 (String.length (JS.toString (clock w (kClock st)))) /\
    r = JS.toUpperCase (JS.substring 2 6 (random36 w (kRandom st))) /\
    String.length r
      = Nat.min 4 (String.length (random36 w (kRandom st)) - 2) /\
    noLowerCase r /\
    (2 <= String.length ("PH" ++ t ++ r) <= 12)%nat.
Proof.
  destruct (substring_suffix (JS.toString (clock w (kClock st)))
              (String.length (JS.toString (clock w (kClock st))) - 6) 6)
    as [pre Hpre]; [lia |].
  exists (JS.sliceLast 6 (JS.toString (clock w (kClock st)))),
         (JS.toUpperCase (JS.substring 2 6 (random36 w (kRandom st)))), pre.
  split; [reflexivity |]. split; [exact Hpre |].
  split; [apply sliceLast_length |]. split; [reflexivity |].
  assert (Hr : String.length
                 (JS.toUpperCase (JS.substring 2 6 (random36 w (kRandom st))))
               = Nat.min 4 (String.length (random36 w (kRandom st)) - 2)).
  { unfold JS.toUpperCase, JS.substring.
    rewrite mapChars_length, substring_length. reflexivity. }
  split; [exact Hr |]. split; [apply toUpperCase_noLowerCase |].
  rewrite !append_length, Hr, sliceLast_length.
  change (String.length "PH") with 2%nat. lia.
Qed.

Lemma orderCodeLoop_Ok (fuel : nat) (w : World) (st st' : St) (code : string) :
  orderCodeLoop fuel w st = (Ok code, st') ->
  findByOrderCode (Some code) (db st) = None /\
  exists i, (i < fuel)%nat /\ code = candidate w st i /\
            st' = advance (S i) st.
Proof.
  revert st. induction fuel as [| fuel IH]; intros st H.
  - discriminate H.
  - rewrite orderCodeLoop_step in H.
    destruct (dbRejects w (kDb st)); [discriminate H |].
    destruct (findByOrderCode (Some (candidate w st 0)) (db st)) eqn:E.
    + destruct (IH _ H) as (Hfree & i & Hi & Hc & Hst).
      split; [exact Hfree |].
      exists (S i). split; [lia |].
      rewrite candidate_advance in Hc. rewrite advance_advance in Hst.
      split; assumption.
    + injection H as <- <-.
      split; [exact E |].
      exists 0%nat. repeat split. lia.
Qed.

(** X2.  Whenever the loop returns a code, no stored order carries it; the
    code is one of the candidates proposed and the store is as it was. *)
Theorem orderCodeLoop_returns_free_code (fuel : nat) (w : World) (st st' : St)
  (code : string) :
  orderCodeLoop fuel w st = (Ok code, st') ->
  db st' = db st /\
  (forall o, In o (orders (db st)) -> ord_orderCode o <> code) /\
  exists i, (i < fuel)%nat /\ code = candidate w st i /\
            st' = advance (S i) st.
Proof.
  intros H. apply orderCodeLoop_Ok in H.
  destruct H as (Hfree & i & Hi & Hc & Hst).
  split; [rewrite Hst; reflexivity |].
  split; [apply findByOrderCode_None; exact Hfree |].
  exists i. repeat split; assumption.
Qed.

Lemma orderCodeLoop_returns_free_code_witness :
  orderCodeLoop 7 tickingWorld (initSt crowdedStore)
    = (Ok "PH123462ABCD", advance 7 (initSt crowdedStore)) /\
  (forall o, In o (orders crowdedStore) -> ord_orderCode o <> "PH123462ABCD").
Proof.
  assert (H : orderCodeLoop 7 tickingWorld (initSt crowdedStore)
              = (Ok "PH123462ABCD", advance 7 (initSt crowdedStore)))
    by (vm_compute; reflexivity).
  split; [exact H |].
  exact (proj1 (proj2 (orderCodeLoop_returns_free_code 7 tickingWorld
                         (initSt crowdedStore) _ "PH123462ABCD" H))).
Defined.

(* ------------------------------------------------------------------ *)
(** ** POST /api/customers *)

Lemma required_None (x : option string) :
  required x = None <-> JS.truthy x = false.
Proof.
  destruct x as [[| c r] |]; simpl; split; congruence.
Qed.

Lemma validateCustomer_email (c : NewCustomer) (doc : Customer) :
  validateCustomer c = Some doc ->
  cd_email (nc_data c) = Some (cust_email doc) /\ cust_id doc = nc_id c.
Proof.
  unfold validateCustomer.
  destruct (cd_email (nc_data c)) as [[| a e] |]; try discriminate.
  cbn [required].
  destruct (required (cd_firstName (nc_data c))); try discriminate.
  destruct (required (cd_lastName (nc_data c))); try discriminate.
  destruct (required (cd_phone (nc_data c))); try discriminate.
  intros H. injection H as <-. split; reflexivity.
Qed.

Lemma getOrCreateCustomer_run (data : CustomerData) (w : World) (s : Store) :
  getOrCreateCustomer data w (initSt s) =
  if dbRejects w 0 then (Throw StoreError, mkSt s 0 0 0 1)
  else match findByEmail (cd_email data) s with
       | Some c => (Ok c, mkSt s 0 0 0 1)
       | None =>
           match validateCustomer
                   (mkNewCustomer (objectId w 0) data (clock w 0)) with
           | None => (Throw ValidationError, mkSt s 1 0 1 1)
           | Some doc =>
               if dbRejects w 1 then (Throw StoreError, mkSt s 1 0 1 2)
               else if existsb (fun x => String.eqb (cust_email x)
                                                    (cust_email doc))
                               (customers s)
                    then (Throw DuplicateKeyError, mkSt s 1 0 1 2)
                    else (Ok doc,
                          mkSt (mkStore (customers s ++ [doc]) (orders s))
                               1 0 1 2)
           end
       end.
Proof.
  unfold getOrCreateCustomer.
  cbv beta iota delta [bind ret Customer_findOne_email dbRead new_Customer
                       newObjectId Date_now Customer_save].
  cbn [initSt db kDb kClock kRandom kId].
  destruct (dbRejects w 0); [reflexivity |].
  destruct (findByEmail (cd_email data) s) as [c |]; [reflexivity |].
  cbn [db kDb kClock kRandom kId].
  destruct (validateCustomer _) as [doc |]; [| reflexivity].
  cbv beta iota delta [bind ret dbWrite].
  cbn [db kDb kClock kRandom kId].
  destruct (dbRejects w 1); [reflexivity |].
  destruct (existsb _ (customers s)); reflexivity.
Qed.

(** In a sequential store the lookup before the insert already excludes
    a duplicate email. *)
Lemma no_duplicate_after_miss (email : string) (s : Store) :
  findByEmail (Some email) s = None ->
  existsb (fun x => String.eqb (cust_email x) email) (customers s) = false.
Proof.
  intros Hfind.
  destruct (existsb _ (customers s)) eqn:E; [| reflexivity].
  apply existsb_exists in E. destruct E as (x & Hin & Hx).
  apply String.eqb_eq in Hx.
  rewrite findByEmail_None in Hfind. exfalso. exact (Hfind x Hin Hx).
Qed.

Lemma post_api_customers_run (data : CustomerData) (w : World) (s : Store) :
  post_api_customers data w s =
  if dbRejects w 0 then (Some (creationFailure StoreError), s)
  else match findByEmail (cd_email data) s with
       | Some c => (Some (customerCreated c), s)
       | None =>
           match validateCustomer
                   (mkNewCustomer (objectId w 0) data (clock w 0)) with
           | None => (Some (creationFailure ValidationError), s)
           | Some doc =>
               if dbRejects w 1 then (Some (creationFailure StoreError), s)
               else (Some (customerCreated doc),
                     mkStore (customers s ++ [doc]) (orders s))
           end
       end.
Proof.
  unfold post_api_customers, tryCatch.
  change (fun w0 st => ?f w0 st) with f.
  unfold bind at 1. rewrite getOrCreateCustomer_run.
  destruct (dbRejects w 0); [reflexivity |].
  destruct (findByEmail (cd_email data) s) as [c |] eqn:Ef; [reflexivity |].
  destruct (validateCustomer _) as [doc |] eqn:Ev; [| reflexivity].
  destruct (dbRejects w 1); [reflexivity |].
  apply validateCustomer_email in Ev. cbn [nc_data] in Ev.
  destruct Ev as [Hemail _]. rewrite Hemail in Ef.
  rewrite (no_duplicate_after_miss _ _ Ef). reflexivity.
Qed.

Lemma findByEmail_app_new (email : string) (s : Store) (doc : Customer) :
  findByEmail (Some email) s = None ->
  cust_email doc = email ->
  findByEmail (Some email) (mkStore (customers s ++ [doc]) (orders s))
    = Some doc.
Proof.
  unfold findByEmail. cbn [customers]. intros Hnone He.
  induction (customers s) as [| x l IH]; cbn [find app] in *.
  - rewrite He. cbn. rewrite String.eqb_refl. reflexivity.
  - destruct (JS.strictEq (Some (cust_email x)) (Some email));
      [discriminate | apply IH; exact Hnone].
Qed.

(** X6.  A request answered with 201 is repeatable: the customer it shows is
    stored under the email of the request, and the same request made again
    on the resulting store, with the database up, gets the same answer
    and stores nothing more. *)
Theorem post_api_customers_idempotent (data : CustomerData) (w w' : World)
  (s s1 : Store) (r : Response) :
  post_api_customers data w s = (Some r, s1) ->
  status r = 201%nat ->
  dbRejects w' 0 = false ->
  (exists c, r = customerCreated c /\ In c (customers s1) /\
             cd_email data = Some (cust_email c)) /\
  post_api_customers data w' s1 = (Some r, s1).
Proof.
  rewrite post_api_customers_run. intros Hrun H201 H0.
  destruct (dbRejects w 0); [crush_cases |].
  destruct (findByEmail (cd_email data) s) as [c |] eqn:Ef.
  - injection Hrun as <- <-.
    assert (Hc : exists e, cd_email data = Some e).
    { destruct (cd_email data) as [e |]; [eauto |].
      unfold findByEmail in Ef. apply find_some in Ef.
      destruct Ef as [_ Ef]. discriminate Ef. }
    destruct Hc as [e He]. rewrite He in Ef.
    split.
    + exists c. apply findByEmail_Some in Ef. destruct Ef as [Hin Hce].
      split; [reflexivity |]. split; [exact Hin | congruence].
    + rewrite post_api_customers_run, H0, He, Ef. reflexivity.
  - destruct (validateCustomer _) as [doc |] eqn:Ev; [| crush_cases].
    destruct (dbRejects w 1); [crush_cases |].
    injection Hrun as <- <-.
    apply validateCustomer_email in Ev. cbn [nc_data] in Ev.
    destruct Ev as [Hemail _]. rewrite Hemail in Ef.
    split.
    + exists doc. split; [reflexivity |]. split; [| exact Hemail].
      cbn [customers]. apply in_or_app. right. left. reflexivity.
    + rewrite post_api_customers_run, H0, Hemail.
      rewrite (findByEmail_app_new _ _ doc Ef eq_refl). reflexivity.
Qed.

Lemma post_api_customers_idempotent_witness :
  post_api_customers sampleProfile payingWorld
    (snd (post_api_customers sampleProfile tickingWorld (mkStore [] [])))
  = post_api_customers sampleProfile tickingWorld (mkStore [] []).
Proof.
  destruct (post_api_customers sampleProfile tickingWorld (mkStore [] []))
    as [r s1] eqn:E.
  assert (E' := E). vm_compute in E'. injection E' as <- <-.
  exact (proj2 (post_api_customers_idempotent sampleProfile tickingWorld
                  payingWorld (mkStore [] []) _ _ E eq_refl eq_refl)).
Defined.

(** X7.  A profile with a required field absent or empty whose email matches
    no stored customer is answered 400 and nothing is stored; the store
    is not even asked to write. *)
Theorem post_api_customers_incomplete_profile (data : CustomerData)
  (w : World) (s : Store) :
  dbRejects w 0 = false ->
  findByEmail (cd_email data) s = None ->
  JS.truthy (cd_email data) = false \/ JS.truthy (cd_firstName data) = false \/
  JS.truthy (cd_lastName data) = false \/ JS.truthy (cd_phone data) = false ->
  post_api_customers data w s
    = (Some (creationFailure ValidationError), s).
Proof.
  intros H0 Hfind Hmiss.
  rewrite post_api_customers_run, H0, Hfind.
  assert (Hv : validateCustomer
                 (mkNewCustomer (objectId w 0) data (clock w 0)) = None).
  { unfold validateCustomer. cbn [nc_data].
    rewrite <- !required_None in Hmiss.
    destruct Hmiss as [-> | [Hm | [Hm | Hm]]]; [reflexivity | | |];
      destruct (required (cd_email data)); try reflexivity;
      rewrite Hm; try reflexivity;
      destruct (required (cd_firstName data)); try reflexivity;
      destruct (required (cd_lastName data)); reflexivity. }
  rewrite Hv. reflexivity.
Qed.

Lemma post_api_customers_incomplete_profile_witness :
  post_api_customers
    (mkCustomerData (Some "new@x.com") (Some "N") (Some "") None)
    tickingWorld awaitingStore
  = (Some (creationFailure ValidationError), awaitingStore).
Proof.
  apply post_api_customers_incomplete_profile;
    [reflexivity | reflexivity |].
  right. right. left. reflexivity.
Defined.

(* ------------------------------------------------------------------ *)
(** ** POST /api/orders *)

(** What the customer resolution leaves behind when it returns. *)
Lemma getOrCreateCustomer_Ok (data : CustomerData) (w : World) (s : Store)
  (c : Customer) (st1 : St) :
  getOrCreateCustomer data w (initSt s) = (Ok c, st1) ->
  cd_email data = Some (cust_email c) /\
  In c (customers (db st1)) /\
  orders (db st1) = orders s /\
  (customers (db st1) = customers s \/
   (findByEmail (cd_email data) s = None /\
    customers (db st1) = (customers s ++ [c])%list)).
Proof.
  rewrite getOrCreateCustomer_run.
  destruct (dbRejects w 0); [discriminate |].
  destruct (findByEmail (cd_email data) s) as [c0 |] eqn:Ef.
  - intros H. injection H as <- <-. cbn [db].
    assert (Hc : exists e, cd_email data = Some e).
    { destruct (cd_email data) as [e |]; [eauto |].
      unfold findByEmail in Ef. apply find_some in Ef.
      destruct Ef as [_ Ef]. discriminate Ef. }
    destruct Hc as [e He]. rewrite He in Ef.
    apply findByEmail_Some in Ef. destruct Ef as [Hin Hce].
    repeat split; [congruence | exact Hin | left; reflexivity].
  - destruct (validateCustomer _) as [doc |] eqn:Ev; [| discriminate].
    destruct (dbRejects w 1); [discriminate |].
    destruct (existsb _ (customers s)); [discriminate |].
    intros H. injection H as <- <-. cbn [db customers orders].
    apply validateCustomer_email in Ev. destruct Ev as [Hemail _].
    repeat split; [exact Hemail | | right; split; reflexivity].
    apply in_or_app. right. left. reflexivity.
Qed.

(** When the customer resolution does not return, nothing was written. *)
Lemma getOrCreateCustomer_not_Ok (data : CustomerData) (w : World) (s : Store) :
  (exists c, fst (getOrCreateCustomer data w (initSt s)) = Ok c) \/
  db (snd (getOrCreateCustomer data w (initSt s))) = s.
Proof.
  rewrite getOrCreateCustomer_run.
  destruct (dbRejects w 0); [right; reflexivity |].
  destruct (findByEmail (cd_email data) s) as [c0 |];
    [left; eexists; reflexivity |].
  destruct (validateCustomer _) as [doc |]; [| right; reflexivity].
  destruct (dbRejects w 1); [right; reflexivity |].
  destruct (existsb _ (customers s));
    [right; reflexivity | left; eexists; reflexivity].
Qed.

Lemma keeps_orderCodeLoop (I : Store -> Prop) (fuel : nat) :
  keeps I (orderCodeLoop fuel).
Proof.
  induction fuel as [| fuel IH]; cbn [orderCodeLoop].
  - apply keeps_spin.
  - unfold generateOrderCode, Order_findOne_orderCode. keeps_tac. exact IH.
Qed.

Lemma candidate_prefix (w : World) (st : St) (i : nat) :
  exists rest, candidate w st i = "PH" ++ rest.
Proof. eexists. reflexivity. Qed.

Lemma validateOrder_Some (n : NewOrder) (doc : Order) :
  validateOrder n = Some doc ->
  parseOrderType (no_type n) = Some (ord_type doc) /\
  no_totalAmount n = Some (ord_totalAmount doc) /\
  ord_id doc = no_id n /\ ord_customer doc = no_customer n /\
  ord_orderCode doc = no_orderCode n /\ ord_items doc = no_items n /\
  ord_status doc = pending /\ ord_paymentReference doc = None /\
  ord_paymentStatus doc = pay_pending /\
  ord_createdAt doc = no_createdAt n /\ ord_updatedAt doc = no_updatedAt n.
Proof.
  unfold validateOrder.
  destruct (parseOrderType (no_type n)) as [t |]; [| discriminate].
  destruct (no_totalAmount n) as [a |]; [| discriminate].
  destruct (no_orderCode n) as [| ch code]; [discriminate |].
  cbn [required]. intros H. injection H as <-. repeat split.
Qed.

(** The handler from the allocation of the code on, started in [st1]:
    either it returns 201 with a new order appended to the store, or it
    does not return and the store is as in [st1]. *)
Lemma order_tail_outcome (fuel : nat) (cid : ObjectId) (rq : OrderRequest)
  (w : World) (st1 : St) :
  let out :=
    (orderCode <- orderCodeLoop fuel ;;
     order <- new_Order cid orderCode (rq_type rq) (rq_items rq)
                        (rq_totalAmount rq) ;;
     order <- Order_save_new order ;;
     ret (mkResponse 201 (BOrderCreated order orderCode))) w st1 in
  (exists o,
     fst out = Ok (mkResponse 201 (BOrderCreated o (ord_orderCode o))) /\
     db (snd out) = mkStore (customers (db st1)) (orders (db st1) ++ [o]) /\
     (forall x, In x (orders (db st1)) -> ord_orderCode x <> ord_orderCode o) /\
     (exists rest, ord_orderCode o = "PH" ++ rest) /\
     ord_customer o = cid /\
     parseOrderType (rq_type rq) = Some (ord_type o) /\
     rq_totalAmount rq = Some (ord_totalAmount o) /\
     ord_items o = rq_items rq /\
     ord_status o = pending /\ ord_paymentReference o = None /\
     ord_paymentStatus o = pay_pending) \/
  ((forall r, fst out <> Ok r) /\ db (snd out) = db st1).
Proof.
  intros out.
  assert (Hout : out = (orderCode <- orderCodeLoop fuel ;;
     order <- new_Order cid orderCode (rq_type rq) (rq_items rq)
                        (rq_totalAmount rq) ;;
     order <- Order_save_new order ;;
     ret (mkResponse 201 (BOrderCreated order orderCode))) w st1)
    by reflexivity.
  clearbody out. unfold bind at 1 in Hout.
  destruct (orderCodeLoop fuel w st1) as [[code | e |] st2] eqn:El.
  - destruct (orderCodeLoop_Ok _ _ _ _ _ El)
      as (Hfree & i & _ & Hcode & Hdb).
    apply (f_equal db) in Hdb. cbn [db advance] in Hdb.
    rewrite findByOrderCode_None in Hfree.
    cbv beta iota delta [bind ret new_Order newObjectId Date_now] in Hout.
    cbn [db kDb kClock kRandom kId] in Hout.
    unfold Order_save_new in Hout.
    destruct (validateOrder _) as [doc |] eqn:Ev.
    + apply validateOrder_Some in Ev.
      cbn [no_type no_totalAmount no_id no_customer no_orderCode no_items
           no_createdAt no_updatedAt] in Ev.
      destruct Ev as (Ht & Ha & _ & Hcu & Hco & Hit & Hs & Hr & Hp & _).
      cbv beta iota delta [bind ret dbWrite] in Hout.
      cbn [db kDb kClock kRandom kId] in Hout.
      destruct (dbRejects w (kDb st2)).
      * subst out. right. split; [intros r; discriminate | exact Hdb].
      * destruct (existsb _ (orders (db st2))).
        -- subst out. right. split; [intros r; discriminate | exact Hdb].
        -- subst out. left. exists doc. cbn [fst snd db]. rewrite Hdb, Hco.
           repeat split; try assumption.
           rewrite Hcode. apply candidate_prefix.
    + subst out. right. cbn [fst snd throw].
      split; [intros r; discriminate | exact Hdb].
  - subst out. right. cbn [fst snd]. split; [intros r; discriminate |].
    assert (H := keeps_orderCodeLoop (fun s => s = db st1) fuel w st1 eq_refl).
    rewrite El in H. exact H.
  - subst out. right. cbn [fst snd]. split; [intros r; discriminate |].
    assert (H := keeps_orderCodeLoop (fun s => s = db st1) fuel w st1 eq_refl).
    rewrite El in H. exact H.
Qed.

Lemma bind_cases {A B : Type} (m : M A) (k : A -> M B) (w : World) (st : St) :
  (exists a st1, m w st = (Ok a, st1) /\ bind m k w st = k a w st1) \/
  ((forall a, fst (m w st) <> Ok a) /\
   (forall b, fst (bind m k w st) <> Ok b) /\
   snd (bind m k w st) = snd (m w st)).
Proof.
  unfold bind. destruct (m w st) as [[a | e |] st1].
  - left. eauto.
  - right. repeat split; intros; discriminate.
  - right. repeat split; intros; discriminate.
Qed.

(** The two ways POST /api/orders can end: with 201 and a new order in the
    store, or without an order; in both a customer may have been added. *)
Lemma post_api_orders_outcome (fuel : nat) (rq : OrderRequest) (w : World)
  (s : Store) :
  let out := post_api_orders fuel rq w s in
  (exists d c o,
     rq_customerData rq = Some d /\ cd_email d = Some (cust_email c) /\
     fst out = Some (mkResponse 201 (BOrderCreated o (ord_orderCode o))) /\
     In c (customers (snd out)) /\
     (customers (snd out) = customers s \/
      (findByEmail (cd_email d) s = None /\
       customers (snd out) = (customers s ++ [c])%list)) /\
     orders (snd out) = (orders s ++ [o])%list /\
     (forall x, In x (orders s) -> ord_orderCode x <> ord_orderCode o) /\
     (exists rest, ord_orderCode o = "PH" ++ rest) /\
     ord_customer o = cust_id c /\
     parseOrderType (rq_type rq) = Some (ord_type o) /\
     rq_totalAmount rq = Some (ord_totalAmount o) /\
     ord_items o = rq_items rq /\
     ord_status o = pending /\ ord_paymentReference o = None /\
     ord_paymentStatus o = pay_pending) \/
  ((forall r, fst out = Some r -> status r = 400%nat) /\
   orders (snd out) = orders s /\
   (customers (snd out) = customers s \/
    exists d c,
      rq_customerData rq = Some d /\ cd_email d = Some (cust_email c) /\
      findByEmail (cd_email d) s = None /\
      customers (snd out) = (customers s ++ [c])%list)).
Proof.
  cbv zeta. unfold post_api_orders, tryCatch, createOrder.
  destruct (rq_customerData rq) as [d |].
  2: { right. cbn. repeat split; auto. intros r H. injection H as <-.
       reflexivity. }
  match goal with
  | |- context [bind (ret d) ?k] =>
      change (bind (ret d) k w (initSt s)) with (k d w (initSt s))
  end.
  cbv beta.
  match goal with
  | |- context [bind (getOrCreateCustomer d) ?k] =>
      destruct (bind_cases (getOrCreateCustomer d) k w (initSt s))
        as [(c & st1 & Hc & Hb) | (Hno & Hnb & Hsnd)]
  end.
  - rewrite Hb. cbv beta.
    apply getOrCreateCustomer_Ok in Hc.
    destruct Hc as (Hemail & Hin & Hord & Hcust).
    destruct (order_tail_outcome fuel (cust_id c) rq w st1)
      as [(o & Hfst & Hdb & Hfree & Hrest) | (Hnot & Hdb)];
      cbv zeta in *.
    + match type of Hfst with
      | fst ?t = _ => destruct t as [res st2]
      end.
      cbn [fst snd] in *. subst res. cbn [fst snd]. rewrite Hdb.
      cbn [customers orders]. left. exists d, c, o.
      rewrite Hord in *.
      repeat split; try assumption; try (apply Hrest).
    + match type of Hdb with
      | db (snd ?t) = _ => destruct t as [res st2]
      end.
      cbn [fst snd] in *. right.
      assert (Hs : db st2 = db st1 /\
                   forall r0, fst (match res with
                                   | Ok r => (Some r, db st2)
                                   | Throw e =>
                                       (Some (mkResponse 400 (BException e)),
                                        db st2)
                                   | Spin => (None, db st2)
                                   end) = Some r0 -> status r0 = 400%nat).
      { split; [exact Hdb |]. intros r0.
        destruct res as [r | e |]; cbn [fst].
        - exfalso. exact (Hnot r eq_refl).
        - intros H. injection H as <-. reflexivity.
        - discriminate. }
      destruct Hs as [_ Hst].
      split; [exact Hst |].
      assert (Hsnd : snd (match res with
                          | Ok r => (Some r, db st2)
                          | Throw e =>
                              (Some (mkResponse 400 (BException e)), db st2)
                          | Spin => (None, db st2)
                          end) = db st1)
        by (destruct res; exact Hdb).
      rewrite Hsnd. split; [exact Hord |].
      destruct Hcust as [Hsame | [Hnone Happ]]; [left; exact Hsame |].
      right. exists d, c. repeat split; assumption.
  - right.
    destruct (getOrCreateCustomer_not_Ok d w s) as [[c Hc] | Hdb];
      [exfalso; exact (Hno c Hc) |].
    match goal with
    | |- context [bind (getOrCreateCustomer d) ?k w (initSt s)] =>
        destruct (bind (getOrCreateCustomer d) k w (initSt s))
          as [res st2]
    end.
    cbn [fst snd] in *. rewrite <- Hsnd in Hdb.
    assert (Hres : forall b, res <> Ok b) by exact Hnb.
    destruct res as [r | e |]; cbn [fst snd].
    + exfalso. exact (Hres r eq_refl).
    + rewrite Hdb. repeat split; auto. intros r H. injection H as <-.
      reflexivity.
    + rewrite Hdb. repeat split; auto. intros r H. discriminate.
Qed.

(** X3.  An order creation answered with 201 has appended exactly one order to
    the store: it is pending, its payment is pending and has no reference;
    its code starts with [PH] and is carried by no order stored before; it
    refers to a stored customer whose email is the one of the request;
    type, items and total amount are those of the request, the total
    amount taken as sent, whatever the items are. *)
Theorem order_created (fuel : nat) (rq : OrderRequest) (w : World)
  (s s' : Store) (r : Response) :
  post_api_orders fuel rq w s = (Some r, s') ->
  status r = 201%nat ->
  exists d c o,
    r = mkResponse 201 (BOrderCreated o (ord_orderCode o)) /\
    orders s' = (orders s ++ [o])%list /\
    (forall x, In x (orders s) -> ord_orderCode x <> ord_orderCode o) /\
    (exists rest, ord_orderCode o = "PH" ++ rest) /\
    ord_status o = pending /\ ord_paymentStatus o = pay_pending /\
    ord_paymentReference o = None /\
    rq_customerData rq = Some d /\ cd_email d = Some (cust_email c) /\
    In c (customers s') /\ ord_customer o = cust_id c /\
    parseOrderType (rq_type rq) = Some (ord_type o) /\
    ord_items o = rq_items rq /\
    rq_totalAmount rq = Some (ord_totalAmount o).
Proof.
  intros Hrun H201.
  destruct (post_api_orders_outcome fuel rq w s)
    as [(d & c & o & Hd & He & Hfst & Hin & _ & Hord & Hfree & Hpre & Hcu
           & Ht & Ha & Hit & Hs & Hr & Hp)
       | (H400 & _)];
    cbv zeta in *; rewrite Hrun in *; cbn [fst snd] in *.
  - injection Hfst as ->. exists d, c, o. repeat split; assumption.
  - specialize (H400 r eq_refl). rewrite H201 in H400. discriminate.
Qed.

Lemma order_created_witness :
  exists o,
    fst (post_api_orders 1 (foodRequest sampleProfile) tickingWorld
           (mkStore [] []))
      = Some (mkResponse 201 (BOrderCreated o "PH123457ABCD")) /\
    ord_status o = pending /\ ord_paymentStatus o = pay_pending.
Proof.
  destruct (post_api_orders 1 (foodRequest sampleProfile) tickingWorld
              (mkStore [] [])) as [r s'] eqn:E.
  assert (E' := E). vm_compute in E'. injection E' as <- <-.
  destruct (order_created _ _ _ _ _ _ E eq_refl)
    as (d & c & o & Hr & _ & _ & _ & Hs & Hp & _).
  injection Hr as Ho _. subst o.
  eexists. split; [reflexivity |]. split; assumption.
Defined.

(** Once the customer resolution has returned, the handler leaves the
    customers as they are, however it ends. *)
Lemma post_api_orders_customers (fuel : nat) (rq : OrderRequest)
  (d : CustomerData) (w : World) (s : Store) (c : Customer) (st1 : St) :
  rq_customerData rq = Some d ->
  getOrCreateCustomer d w (initSt s) = (Ok c, st1) ->
  customers (snd (post_api_orders fuel rq w s)) = customers (db st1).
Proof.
  intros Hd Hc. unfold post_api_orders, tryCatch, createOrder. rewrite Hd.
  match goal with
  | |- context [bind (ret d) ?k] =>
      change (bind (ret d) k w (initSt s)) with (k d w (initSt s))
  end.
  cbv beta.
  match goal with
  | |- context [bind (getOrCreateCustomer d) ?k] =>
      destruct (bind_cases (getOrCreateCustomer d) k w (initSt s))
        as [(c' & st1' & Hc' & Hb) | (Hno & _)]
  end.
  2: { exfalso. apply (Hno c). rewrite Hc. reflexivity. }
  rewrite Hc in Hc'. injection Hc' as <- <-. rewrite Hb. cbv beta.
  destruct (order_tail_outcome fuel (cust_id c) rq w st1)
    as [(o & Hfst & Hdb & _) | (Hnot & Hdb)]; cbv zeta in *.
  - match type of Hfst with
    | fst ?t = _ => destruct t as [res st2]
    end.
    cbn [fst snd] in *. subst res. cbn [snd]. rewrite Hdb. reflexivity.
  - match type of Hdb with
    | db (snd ?t) = _ => destruct t as [res st2]
    end.
    cbn [fst snd] in *. destruct res; cbn [snd]; rewrite Hdb; reflexivity.
Qed.

Lemma required_filled (x : string) : x <> "" -> required (Some x) = Some x.
Proof.
  destruct x; [intros H; exfalso; apply H |]; reflexivity.
Qed.

(** X4.  An order creation that is not answered with 201 is answered with 400
    and stores no order.  Its customer stays in the store all the same:
    with the database up, a complete profile under an email that no
    stored customer has is stored as a new customer, last in the
    collection, with the id and the time of the request; a profile whose
    email a stored customer has leaves the customers as they are.  No
    other change of the customers occurs. *)
Theorem failed_order_creation_effects (fuel : nat) (rq : OrderRequest)
  (w : World) (s s' : Store) (r : Response) :
  post_api_orders fuel rq w s = (Some r, s') ->
  status r <> 201%nat ->
  status r = 400%nat /\
  orders s' = orders s /\
  (forall d e f l p,
     rq_customerData rq = Some d ->
     cd_email d = Some e -> cd_firstName d = Some f ->
     cd_lastName d = Some l -> cd_phone d = Some p ->
     e <> "" -> f <> "" -> l <> "" -> p <> "" ->
     (forall c, In c (customers s) -> cust_email c <> e) ->
     dbRejects w 0 = false -> dbRejects w 1 = false ->
     customers s'
       = (customers s ++ [mkCustomer (objectId w 0) e f l p (clock w 0)])%list) /\
  (forall d c,
     rq_customerData rq = Some d ->
     In c (customers s) -> cd_email d = Some (cust_email c) ->
     customers s' = customers s) /\
  (customers s' = customers s \/
   exists d c,
     rq_customerData rq = Some d /\ cd_email d = Some (cust_email c) /\
     (forall c', In c' (customers s) -> cust_email c' <> cust_email c) /\
     customers s' = (customers s ++ [c])%list).
Proof.
  intros Hrun Hnot.
  destruct (post_api_orders_outcome fuel rq w s)
    as [(d & c & o & _ & _ & Hfst & _) | (H400 & Hord & Hcust)];
    cbv zeta in *; rewrite Hrun in *; cbn [fst snd] in *.
  { injection Hfst as ->. exfalso. apply Hnot. reflexivity. }
  split; [apply H400; reflexivity |]. split; [exact Hord |].
  split; [| split].
  - intros d e f l p Hd He Hf Hl Hp Hne Hnf Hnl Hnp Hnew H0 H1.
    assert (Hg : getOrCreateCustomer d w (initSt s)
                 = (Ok (mkCustomer (objectId w 0) e f l p (clock w 0)),
                    mkSt (mkStore (customers s ++
                                     [mkCustomer (objectId w 0) e f l p
                                                 (clock w 0)])
                                  (orders s)) 1 0 1 2)).
    { rewrite getOrCreateCustomer_run, H0, He.
      rewrite (findByEmail_absent _ _ Hnew).
      unfold validateCustomer. cbn [nc_data nc_id nc_createdAt].
      rewrite He, Hf, Hl, Hp, !required_filled by assumption.
      rewrite H1. cbn [cust_email].
      assert (Hex : existsb (fun x => String.eqb (cust_email x) e)
                            (customers s) = false).
      { apply no_duplicate_after_miss. apply findByEmail_absent. exact Hnew. }
      rewrite Hex. reflexivity. }
    assert (Hk := post_api_orders_customers fuel rq d w s _ _ Hd Hg).
    rewrite Hrun in Hk. exact Hk.
  - intros d c Hd Hin He.
    destruct Hcust as [Hsame | (d' & c' & Hd' & _ & Hnone & _)];
      [exact Hsame |].
    rewrite Hd in Hd'. injection Hd' as <-. rewrite He in Hnone.
    rewrite findByEmail_None in Hnone. exfalso.
    exact (Hnone c Hin eq_refl).
  - destruct Hcust as [Hsame | (d & c & Hd & He & Hnone & Happ)];
      [left; exact Hsame |].
    right. exists d, c. rewrite He in Hnone.
    rewrite findByEmail_None in Hnone.
    split; [exact Hd |]. split; [exact He |]. split; assumption.
Qed.

(** An order of an unknown type for a new customer: answered 400, no order
    stored, the customer stored. *)
Lemma failed_order_creation_effects_witness :
  post_api_orders 1 (spaRequest sampleProfile) tickingWorld (mkStore [] [])
  = (Some (creationFailure ValidationError),
     mkStore [mkCustomer (objectId tickingWorld 0) "a@x.com" "A" "B" "123"
                         (clock tickingWorld 0)] []).
Proof.
  destruct (post_api_orders 1 (spaRequest sampleProfile) tickingWorld
              (mkStore [] [])) as [r s'] eqn:E.
  assert (E' := E). vm_compute in E'.
  assert (Hr : r = Some (creationFailure ValidationError))
    by (injection E' as <- _; reflexivity).
  subst r. clear E'.
  assert (Hnot : status (creationFailure ValidationError) <> 201%nat)
    by discriminate.
  destruct (failed_order_creation_effects _ _ _ _ _ _ E Hnot)
    as (_ & Hord & Hnew & _).
  assert (Hc := Hnew sampleProfile "a@x.com" "A" "B" "123"
                  eq_refl eq_refl eq_refl eq_refl eq_refl).
  destruct s' as [cs os]. cbn [customers orders] in *.
  rewrite Hord, Hc; try reflexivity; try discriminate.
  intros c [].
Defined.

(* ------------------------------------------------------------------ *)
(** ** Uniqueness of emails and order codes *)

Lemma NoDup_snoc {A : Type} (l : list A) (x : A) :
  NoDup l -> ~ In x l -> NoDup (l ++ [x]).
Proof.
  intros Hl Hx. apply NoDup_rev in Hl.
  rewrite <- (rev_involutive (l ++ [x])). apply NoDup_rev.
  rewrite rev_app_distr. cbn. constructor; [| exact Hl].
  rewrite <- in_rev. exact Hx.
Qed.

Lemma existsb_email_false (l : list Customer) (e : string) :
  existsb (fun x => String.eqb (cust_email x) e) l = false ->
  ~ In e (map cust_email l).
Proof.
  intros H Hin. apply in_map_iff in Hin. destruct Hin as (x & Hx & Hin).
  assert (Ht : existsb (fun x => String.eqb (cust_email x) e) l = true).
  { apply existsb_exists. exists x. split; [exact Hin |].
    apply String.eqb_eq. exact Hx. }
  congruence.
Qed.

Lemma existsb_code_false (l : list Order) (c : string) :
  existsb (fun x => String.eqb (ord_orderCode x) c) l = false ->
  ~ In c (map ord_orderCode l).
Proof.
  intros H Hin. apply in_map_iff in Hin. destruct Hin as (x & Hx & Hin).
  assert (Ht : existsb (fun x => String.eqb (ord_orderCode x) c) l = true).
  { apply existsb_exists. exists x. split; [exact Hin |].
    apply String.eqb_eq. exact Hx. }
  congruence.
Qed.

Lemma keeps_unique_Customer_save (c : NewCustomer) :
  keeps (fun s => uniqueEmails s /\ uniqueOrderCodes s) (Customer_save c).
Proof.
  unfold Customer_save. destruct (validateCustomer c) as [doc |];
    [| apply keeps_throw].
  apply keeps_bind; [| intros ?; apply keeps_ret].
  apply keeps_dbWrite. intros s s' [He Hc] Hf.
  destruct (existsb _ (customers s)) eqn:Ex; [discriminate |].
  injection Hf as <-. split; [| exact Hc].
  unfold uniqueEmails. cbn [customers]. rewrite map_app. cbn [map].
  apply NoDup_snoc; [exact He | apply existsb_email_false; exact Ex].
Qed.

Lemma keeps_unique_Order_save_new (o : NewOrder) :
  keeps (fun s => uniqueEmails s /\ uniqueOrderCodes s) (Order_save_new o).
Proof.
  unfold Order_save_new. destruct (validateOrder o) as [doc |];
    [| apply keeps_throw].
  apply keeps_bind; [| intros ?; apply keeps_ret].
  apply keeps_dbWrite. intros s s' [He Hc] Hf.
  destruct (existsb _ (orders s)) eqn:Ex; [discriminate |].
  injection Hf as <-. split; [exact He |].
  unfold uniqueOrderCodes. cbn [orders]. rewrite map_app. cbn [map].
  apply NoDup_snoc; [exact Hc | apply existsb_code_false; exact Ex].
Qed.

Lemma keeps_unique_getOrCreateCustomer (data : CustomerData) :
  keeps (fun s => uniqueEmails s /\ uniqueOrderCodes s)
        (getOrCreateCustomer data).
Proof.
  unfold getOrCreateCustomer, Customer_findOne_email, new_Customer.
  keeps_tac. apply keeps_unique_Customer_save.
Qed.

(** X5.  The two creation handlers keep the emails of the customers pairwise
    distinct and the codes of the orders pairwise distinct, whatever the
    request and however the handler ends. *)
Theorem creation_keeps_uniqueness (w : World) (s : Store) :
  uniqueEmails s ->
  uniqueOrderCodes s ->
  (forall data,
     uniqueEmails (snd (post_api_customers data w s)) /\
     uniqueOrderCodes (snd (post_api_customers data w s))) /\
  (forall fuel rq,
     uniqueEmails (snd (post_api_orders fuel rq w s)) /\
     uniqueOrderCodes (snd (post_api_orders fuel rq w s))).
Proof.
  intros He Hc. split; intros.
  - apply (keeps_tryCatch (fun s => uniqueEmails s /\ uniqueOrderCodes s));
      [| split; assumption].
    apply keeps_bind; [apply keeps_unique_getOrCreateCustomer |].
    intros ?. apply keeps_ret.
  - apply (keeps_tryCatch (fun s => uniqueEmails s /\ uniqueOrderCodes s));
      [| split; assumption].
    unfold createOrder.
    apply keeps_bind; [destruct (rq_customerData rq); keeps_tac |].
    intros d. apply keeps_bind; [apply keeps_unique_getOrCreateCustomer |].
    intros c. apply keeps_bind; [apply keeps_orderCodeLoop |].
    intros code. unfold new_Order. keeps_tac.
    apply keeps_unique_Order_save_new.
Qed.

Lemma creation_keeps_uniqueness_witness :
  uniqueEmails
    (snd (post_api_orders 7 (foodRequest upperCaseProfile) tickingWorld
            (mkStore [sampleCustomer] (orders crowdedStore)))) /\
  uniqueOrderCodes
    (snd (post_api_orders 7 (foodRequest upperCaseProfile) tickingWorld
            (mkStore [sampleCustomer] (orders crowdedStore)))).
Proof.
  apply creation_keeps_uniqueness.
  - unfold uniqueEmails. cbn. constructor; [intros [] | constructor].
  - unfold uniqueOrderCodes. cbn.
    repeat (constructor; [cbn; intros H;
      repeat (destruct H as [H | H]; [discriminate H |]); exact H |]).
    constructor.
Defined.

(* ------------------------------------------------------------------ *)
(** ** What the payment handlers write *)

Lemma findByPaymentReference_In (reference : option string) (s : Store)
  (o : Order) :
  findByPaymentReference reference s = Some o ->
  In o (orders s) /\ ord_paymentReference o = reference.
Proof.
  unfold findByPaymentReference. intros H. apply find_some in H.
  destruct H as [Hin Heq]. split; [exact Hin |].
  apply strictEq_true. exact Heq.
Qed.

Lemma findById_In (orderId : option ObjectId) (s : Store) (o : Order) :
  findById orderId s = Some o ->
  In o (orders s) /\ denotes orderId (ord_id o).
Proof.
  unfold findById, denotes. destruct orderId as [x |]; [| discriminate].
  destruct (castObjectId x) as [i |] eqn:Ec; [| discriminate].
  intros H. apply find_some in H. destruct H as [Hin Heq].
  apply String.eqb_eq in Heq.
  split; [exact Hin |]. exists x. split; [reflexivity | congruence].
Qed.

Lemma findById_None (orderId : option ObjectId) (s : Store) :
  findById orderId s = None <->
  (forall o, In o (orders s) -> ~ denotes orderId (ord_id o)).
Proof.
  unfold findById, denotes. destruct orderId as [x |].
  - destruct (castObjectId x) as [i |] eqn:Ec.
    + split.
      * intros H o Ho (x' & Hx & Hc). injection Hx as <-.
        rewrite Ec in Hc. injection Hc as ->.
        apply (find_none _ _ H) in Ho.
        rewrite String.eqb_refl in Ho. discriminate.
      * intros H. apply find_absent. intros o Ho.
        apply String.eqb_neq. intros E. apply (H o Ho).
        exists x. split; [reflexivity | congruence].
    + split; [| reflexivity].
      intros _ o _ (x' & Hx & Hc). injection Hx as <-. congruence.
  - split; [| reflexivity].
    intros _ o _ (x' & Hx & _). discriminate.
Qed.

Lemma findById_unique (orderId : option ObjectId) (s : Store) (o : Order) :
  In o (orders s) -> denotes orderId (ord_id o) ->
  (forall o', In o' (orders s) -> ord_id o' = ord_id o -> o' = o) ->
  findById orderId s = Some o.
Proof.
  intros Hin (x & -> & Hc) Hu. unfold findById. rewrite Hc.
  apply find_unique; [exact Hin | apply String.eqb_refl |].
  intros y Hy Hfy. apply String.eqb_eq in Hfy. apply Hu; assumption.
Qed.

Lemma findByPaymentReference_first (reference : option string) (s : Store)
  (o : Order) :
  findByPaymentReference reference s = Some o <->
  firstOrderWith reference o s.
Proof.
  unfold findByPaymentReference, firstOrderWith.
  induction (orders s) as [| y l IH]; cbn [find].
  - split; [discriminate |].
    intros (b & a & H & _). destruct b; discriminate.
  - destruct (JS.strictEq (ord_paymentReference y) reference) eqn:E.
    + split.
      * intros H. injection H as <-. exists [], l.
        split; [reflexivity |].
        split; [apply strictEq_true; exact E |]. intros x [].
      * intros (b & a & H & Hr & Hb). destruct b as [| z b].
        -- cbn [app] in H. injection H as H _. rewrite H. reflexivity.
        -- cbn [app] in H. injection H as H _. exfalso.
           apply (Hb y); [left; symmetry; exact H |].
           apply strictEq_true. exact E.
    + rewrite IH. split.
      * intros (b & a & H & Hr & Hb). exists (y :: b), a.
        split; [cbn [app]; rewrite H; reflexivity |].
        split; [exact Hr |].
        intros x [<- | Hx]; [apply strictEq_false; exact E | apply Hb; exact Hx].
      * intros (b & a & H & Hr & Hb). destruct b as [| z b].
        -- cbn [app] in H. injection H as H _. subst y.
           apply strictEq_false in E. contradiction.
        -- cbn [app] in H. injection H as _ H. exists b, a.
           split; [exact H |]. split; [exact Hr |].
           intros x Hx. apply Hb. right. exact Hx.
Qed.

Lemma replaceOrder_In (o o' : Order) (l : list Order) :
  In o l -> ord_id o' = ord_id o -> In o' (replaceOrder o' l).
Proof.
  intros Hin Hid. unfold replaceOrder. apply in_map_iff.
  exists o. rewrite Hid, String.eqb_refl. split; [reflexivity | exact Hin].
Qed.

Lemma sameOrderCore_refl (x : Order) : sameOrderCore x x.
Proof. repeat split. Qed.

Lemma sameOrderCore_markPaid (now : Date) (o : Order) :
  sameOrderCore o (markPaid now o).
Proof. repeat split. Qed.

Lemma sameOrderCore_set_paymentReference (r : string) (o : Order) :
  sameOrderCore o (set_paymentReference r o).
Proof. repeat split. Qed.

Lemma unique_id_In (l : list Order) (x o : Order) :
  NoDup (map ord_id l) -> In x l -> In o l -> ord_id x = ord_id o -> x = o.
Proof.
  induction l as [| y l IH]; intros Hnd Hx Ho Hid; [contradiction |].
  cbn [map] in Hnd. inversion Hnd as [| ? ? Hny Hnd']; subst.
  destruct Hx as [-> | Hx], Ho as [-> | Ho].
  - reflexivity.
  - exfalso. apply Hny. rewrite Hid. apply in_map. exact Ho.
  - exfalso. apply Hny. rewrite <- Hid. apply in_map. exact Hx.
  - apply IH; assumption.
Qed.

Lemma sameOrderCore_maps (l l' : list Order) :
  Forall2 sameOrderCore l l' ->
  map ord_id l' = map ord_id l /\
  map ord_orderCode l' = map ord_orderCode l.
Proof.
  induction 1 as [| x y l l' Hxy _ IH]; [split; reflexivity |].
  destruct IH as [IH1 IH2]. destruct Hxy as (Hi & _ & Hc & _).
  cbn [map]. rewrite Hi, Hc, IH1, IH2. split; reflexivity.
Qed.

(** With unique ids a write touches the written order only. *)
Lemma replaceOrder_core (l : list Order) (o o' : Order) :
  NoDup (map ord_id l) -> In o l -> sameOrderCore o o' ->
  Forall2 sameOrderCore l (replaceOrder o' l) /\
  (forall x, In x l -> x <> o -> In x (replaceOrder o' l)).
Proof.
  intros Hnd Hin Hcore.
  assert (Hid : ord_id o' = ord_id o) by apply Hcore.
  split.
  - assert (H : forall x, In x l ->
                  sameOrderCore x
                    (if String.eqb (ord_id x) (ord_id o') then o' else x)).
    { intros x Hx. destruct (String.eqb_spec (ord_id x) (ord_id o')) as [E | E].
      - rewrite Hid in E. rewrite (unique_id_In l x o Hnd Hx Hin E).
        exact Hcore.
      - apply sameOrderCore_refl. }
    clear Hin Hnd. unfold replaceOrder.
    induction l as [| y l IH]; cbn [map]; constructor.
    + apply H. left. reflexivity.
    + apply IH. intros x Hx. apply H. right. exact Hx.
  - intros x Hx Hne. apply replaceOrder_other; [exact Hx |].
    intros E. apply Hne. rewrite Hid in E.
    exact (unique_id_In l x o Hnd Hx Hin E).
Qed.

(** X13.  A verify request that the gateway confirms is answered with 200 and
    the gateway's report, and turns the first stored order that carries
    the reference into a paid one, whatever its status was: [status] is
    [paid], [paymentStatus] is [success], [updatedAt] is the time of the
    request and every other field is as before; with unique ids every
    other order stays as it was. *)
Theorem verify_success_marks_paid (reference : option string) (w : World)
  (s : Store) (o : Order) :
  gatewayConfirms reference w ->
  firstOrderWith reference o s ->
  exists pd o',
    paystackVerify w reference = Some (Some pd) /\
    post_api_payments_verify reference w s
      = (Some (verifyReport pd),
         mkStore (customers s) (replaceOrder o' (orders s))) /\
    In o' (replaceOrder o' (orders s)) /\
    firstOrderWith reference o'
      (mkStore (customers s) (replaceOrder o' (orders s))) /\
    ord_status o' = paid /\ ord_paymentStatus o' = pay_success /\
    ord_updatedAt o' = clock w 0 /\
    ord_paymentReference o' = ord_paymentReference o /\
    sameOrderCore o o' /\
    (uniqueOrderIds s ->
     forall x, In x (orders s) -> x <> o ->
               In x (replaceOrder o' (orders s))).
Proof.
  intros ((pd & Hgw & Hst) & H0 & H1) Hfirst.
  apply findByPaymentReference_first in Hfirst.
  exists pd, (markPaid (clock w 0) o).
  split; [exact Hgw |]. split.
  { rewrite post_api_payments_verify_run, Hgw, Hst, H0, Hfirst, H1.
    reflexivity. }
  assert (Hin : In o (orders s))
    by (apply findByPaymentReference_In in Hfirst; apply Hfirst).
  split; [apply (replaceOrder_In o); [exact Hin | reflexivity] |].
  split.
  { apply findByPaymentReference_first.
    apply (findByPaymentReference_replaceOrder reference o);
      [exact Hfirst | reflexivity | reflexivity]. }
  repeat split.
  intros Hnd x Hx Hne.
  exact (proj2 (replaceOrder_core (orders s) o _ Hnd Hin
                  (sameOrderCore_markPaid _ o)) x Hx Hne).
Qed.

(** A late success for a cancelled order: the order is paid afterwards. *)
Lemma verify_success_marks_paid_witness :
  ord_status cancelledOrder = cancelled /\
  exists o',
    In o' (orders (snd (post_api_payments_verify
                          (Some "order_o1_1700000000001")
                          payingWorld cancelledStore))) /\
    ord_status o' = paid /\ ord_paymentStatus o' = pay_success.
Proof.
  split; [reflexivity |].
  assert (Hv : gatewayConfirms (Some "order_o1_1700000000001") payingWorld).
  { split; [eexists; split; reflexivity |]. split; reflexivity. }
  assert (Hf : firstOrderWith (Some "order_o1_1700000000001")
                 cancelledOrder cancelledStore).
  { exists [], []. split; [reflexivity |]. split; [reflexivity |].
    intros x []. }
  destruct (verify_success_marks_paid (Some "order_o1_1700000000001")
              payingWorld cancelledStore cancelledOrder Hv Hf)
    as (pd & o' & _ & Hrun & Hin & _ & Hs & Hp & _).
  exists o'. rewrite Hrun. cbn [snd orders].
  split; [exact Hin |]. split; assumption.
Defined.

(** X14.  In server.js, where [crypto] is not bound, the webhook writes
    nothing: every request is answered 500 with the store as it was.  With
    [crypto] bound to a digest the handler writes in one case only: the
    signature matches, the event is [charge.success] and an order carries
    its reference; then, the database being up, it answers 200 and writes
    the success transition of the first such order.  In every other case
    the store is left as it was. *)
Theorem webhook_writes_only_on_matched_success
  (crypto : option (string -> string -> string))
  (stringify : WebhookEvent -> string)
  (signature : option string) (event : WebhookEvent) (w : World) (s : Store) :
  post_api_webhooks_paystack serverCrypto stringify signature event w s
    = (Some webhookError, s) /\
  (let out := post_api_webhooks_paystack crypto stringify signature event w s in
   (forall hmac key d o,
      crypto = Some hmac -> PAYSTACK_SECRET_KEY w = Some key ->
      signature = Some (hmac key (stringify event)) ->
      ev_event event = Some "charge.success" ->
      ev_data event = Some d ->
      firstOrderWith (wd_reference d) o s ->
      dbRejects w 0 = false -> dbRejects w 1 = false ->
      out = (Some webhookOk, storeAfterPaid (clock w 0) o s)) /\
   (snd out = s \/
    exists hmac key d o,
      crypto = Some hmac /\ PAYSTACK_SECRET_KEY w = Some key /\
      signature = Some (hmac key (stringify event)) /\
      ev_event event = Some "charge.success" /\
      ev_data event = Some d /\
      firstOrderWith (wd_reference d) o s /\
      out = (Some webhookOk, storeAfterPaid (clock w 0) o s))).
Proof.
  split; [apply post_api_webhooks_paystack_unbound |].
  cbv zeta. rewrite post_api_webhooks_paystack_run. split.
  - intros hmac key d o -> -> -> -> -> Hfirst -> ->.
    apply findByPaymentReference_first in Hfirst. rewrite Hfirst.
    assert (E : forall x : option string, JS.strictEq x x = true)
      by (intros x; apply strictEq_true; reflexivity).
    rewrite !E. reflexivity.
  - destruct crypto as [hmac |]; [| left; reflexivity].
    destruct (PAYSTACK_SECRET_KEY w) as [key |] eqn:Ek; [| left; reflexivity].
    destruct (JS.strictEq (Some (hmac key (stringify event))) signature) eqn:Es;
      [| left; reflexivity].
    destruct (JS.strictEq (ev_event event) (Some "charge.success")) eqn:Ee;
      [| left; reflexivity].
    destruct (ev_data event) as [d |] eqn:Ed; [| left; reflexivity].
    destruct (dbRejects w 0); [left; reflexivity |].
    destruct (findByPaymentReference (wd_reference d) s) as [o |] eqn:Ef;
      [| left; reflexivity].
    destruct (dbRejects w 1); [left; reflexivity |].
    right. apply strictEq_true in Es. apply strictEq_true in Ee.
    apply findByPaymentReference_first in Ef.
    exists hmac, key, d, o. repeat split; auto.
Qed.

(** The signed [charge.success] event for [awaitingOrder]: answered 500 by
    server.js, and applied where [crypto] is bound to a digest. *)
Lemma webhook_writes_only_on_matched_success_witness :
  post_api_webhooks_paystack serverCrypto sampleStringify
    (sampleSignature (chargeSuccess "order_o1_1700000000001"))
    (chargeSuccess "order_o1_1700000000001") payingWorld awaitingStore
    = (Some webhookError, awaitingStore) /\
  post_api_webhooks_paystack (Some sampleHmac) sampleStringify
    (sampleSignature (chargeSuccess "order_o1_1700000000001"))
    (chargeSuccess "order_o1_1700000000001") payingWorld awaitingStore
    = (Some webhookOk,
       storeAfterPaid (clock payingWorld 0) awaitingOrder awaitingStore).
Proof.
  destruct (webhook_writes_only_on_matched_success (Some sampleHmac)
              sampleStringify
              (sampleSignature (chargeSuccess "order_o1_1700000000001"))
              (chargeSuccess "order_o1_1700000000001") payingWorld
              awaitingStore) as [_ [Hwrite _]].
  split.
  - apply (webhook_writes_only_on_matched_success None).
  - apply (Hwrite sampleHmac "sk_test"
             (mkWebhookData (Some "order_o1_1700000000001")) awaitingOrder);
      try reflexivity.
    exists [], []. split; [reflexivity |]. split; [reflexivity |].
    intros x [].
Defined.

(** X15.  With the database up, the verify handler passes the gateway's answer
    on: when the gateway call fails or has no [data] it answers 500 and
    writes nothing; otherwise it answers 200 with the gateway's status,
    reference and amount divided by 100, whether or not an order carries
    the reference, and it writes only when the status is [success] and an
    order is found. *)
Theorem verify_passes_gateway_answer_on (reference : option string)
  (w : World) (s : Store) :
  dbRejects w 0 = false ->
  dbRejects w 1 = false ->
  let out := post_api_payments_verify reference w s in
  match paystackVerify w reference with
  | Some (Some pd) =>
      fst out = Some (mkResponse 200
                        (BPayment (pd_status pd)
                           (option_map (fun a => (a / 100)%Q) (pd_amount pd))
                           (pd_reference pd))) /\
      (snd out = s \/
       (pd_status pd = Some "success" /\
        exists o, findByPaymentReference reference s = Some o /\
                  snd out = storeAfterPaid (clock w 0) o s))
  | _ => exists e, out = (Some (verifyFailure e), s)
  end.
Proof.
  intros H0 H1. cbv zeta. rewrite post_api_payments_verify_run.
  destruct (paystackVerify w reference) as [[pd |] |];
    [| eexists; reflexivity | eexists; reflexivity].
  destruct (JS.strictEq (pd_status pd) (Some "success")) eqn:Es.
  - rewrite H0. apply strictEq_true in Es.
    destruct (findByPaymentReference reference s) as [o |] eqn:Ef.
    + rewrite H1. split; [reflexivity |]. right.
      split; [exact Es |]. exists o. split; reflexivity.
    + split; [reflexivity | left; reflexivity].
  - split; [reflexivity | left; reflexivity].
Qed.

Lemma verify_passes_gateway_answer_on_witness :
  post_api_payments_verify (Some "order_unknown_1") payingWorld awaitingStore
  = (Some (mkResponse 200
             (BPayment (Some "success") (Some ((2000 # 1) / 100)%Q)
                       (Some "order_unknown_1"))),
     awaitingStore).
Proof.
  destruct (verify_passes_gateway_answer_on (Some "order_unknown_1")
              payingWorld awaitingStore eq_refl eq_refl)
    as [Hfst [Hsnd | (_ & o & Ho & _)]].
  - destruct (post_api_payments_verify (Some "order_unknown_1")
                payingWorld awaitingStore) as [r s'].
    cbn [fst snd] in *. rewrite Hfst, Hsnd. reflexivity.
  - discriminate Ho.
Defined.

(** X16.  The failures of a payment initialization.  An [orderId] that is no
    ObjectId is answered 500 and nothing is written.  With the database
    up, an [orderId] that denotes no stored order is answered 404 and
    nothing is written; for the order it denotes, a gateway call that
    fails is answered 500 and nothing is written, and a gateway call that
    resolves with a payload without [data] is answered 500 although the
    generated reference has been written to the order.  A payment
    initialization that is not answered with 200 has written nothing but
    in that last case, and it answers 404 exactly when the id is
    well-formed, the database is up and no stored order has the id. *)
Theorem initialize_failure_effects (orderId : option ObjectId)
  (email : option string) (w : World) (s : Store) :
  ~ twelveBytes orderId ->
  let out := post_api_payments_initialize orderId email w s in
  (castFails orderId = true -> out = (Some (initFailure CastError), s)) /\
  (castFails orderId = false -> dbRejects w 0 = false ->
   (forall o, In o (orders s) -> ~ denotes orderId (ord_id o)) ->
   out = (Some orderNotFound, s)) /\
  (forall o c,
     dbRejects w 0 = false ->
     In o (orders s) -> denotes orderId (ord_id o) ->
     (forall o', In o' (orders s) -> ord_id o' = ord_id o -> o' = o) ->
     In c (customers s) -> cust_id c = ord_customer o ->
     (forall c', In c' (customers s) -> cust_id c' = ord_customer o ->
                 c' = c) ->
     (paystackInitialize w (paymentDataFor email w o c) = None ->
      out = (Some (initFailure AxiosError), s)) /\
     (paystackInitialize w (paymentDataFor email w o c) = Some None ->
      dbRejects w 1 = false ->
      out = (Some (initFailure TypeError), storeAfterInit w o s) /\
      In (set_paymentReference (referenceFor o (clock w 0)) o)
         (orders (storeAfterInit w o s)))) /\
  (forall r, fst out = Some r -> status r <> 200%nat ->
     (snd out = s /\ (status r = 404%nat \/ status r = 500%nat) /\
      (status r = 404%nat <->
       castFails orderId = false /\ dbRejects w 0 = false /\
       forall o, In o (orders s) -> ~ denotes orderId (ord_id o))) \/
     (status r = 500%nat /\
      exists o c,
        In o (orders s) /\ denotes orderId (ord_id o) /\
        In c (customers s) /\ cust_id c = ord_customer o /\
        paystackInitialize w (paymentDataFor email w o c) = Some None /\
        snd out = storeAfterInit w o s)).
Proof.
  intros _. cbv zeta. rewrite post_api_payments_initialize_run.
  split; [intros ->; reflexivity |].
  split.
  { intros -> -> Hnone. apply findById_None in Hnone. rewrite Hnone.
    reflexivity. }
  split.
  { intros o c H0 Hin Hden Huo Hc Hid Huc.
    assert (Hcast : castFails orderId = false).
    { destruct Hden as (x & -> & Hx). unfold castFails. rewrite Hx.
      reflexivity. }
    rewrite Hcast, H0, (findById_unique _ _ o Hin Hden Huo),
      (lookupCustomer_unique _ _ c Hc Hid Huc).
    split.
    - intros ->. reflexivity.
    - intros -> ->. split; [reflexivity |].
      unfold storeAfterInit. cbn [orders].
      apply (replaceOrder_In o); [exact Hin | reflexivity]. }
  intros r Hr Hnot.
  destruct (castFails orderId) eqn:Ecast.
  { cbn [fst snd] in *. injection Hr as <-. left.
    repeat split; auto; intros; crush_cases. }
  destruct (dbRejects w 0) eqn:E0.
  { cbn [fst snd] in *. injection Hr as <-. left.
    repeat split; auto; intros; crush_cases. }
  destruct (findById orderId s) as [o |] eqn:Ef.
  2: { cbn [fst snd] in *. injection Hr as <-. left.
       repeat split; auto. apply findById_None. exact Ef. }
  assert (Hsome : ~ (forall o', In o' (orders s) ->
                               ~ denotes orderId (ord_id o'))).
  { intros H. apply findById_None in H. congruence. }
  apply findById_In in Ef. destruct Ef as [Hin Hden].
  assert (Hs := lookupCustomer_spec s (ord_customer o)).
  destruct (lookupCustomer s (ord_customer o)) as [c |] eqn:Ec.
  2: { cbn [fst snd] in *. injection Hr as <-. left.
       repeat split; auto; intros; crush_cases. }
  destruct Hs as [Hc Hid].
  destruct (paystackInitialize w (paymentDataFor email w o c))
    as [response |] eqn:Eg.
  2: { cbn [fst snd] in *. injection Hr as <-. left.
       repeat split; auto; intros; crush_cases. }
  destruct (dbRejects w 1).
  { cbn [fst snd] in *. injection Hr as <-. left.
    repeat split; auto; intros; crush_cases. }
  destruct response as [d |]; cbn [fst snd] in *; injection Hr as <-.
  - exfalso. apply Hnot. reflexivity.
  - right. split; [reflexivity |].
    exists o, c. repeat split; assumption.
Qed.

(** An id that is no ObjectId, an id no order has, and a gateway payload
    without [data] for the order of [hexStore]. *)
Lemma initialize_failure_effects_witness :
  post_api_payments_initialize (Some "nope") None payingWorld hexStore
    = (Some (initFailure CastError), hexStore) /\
  post_api_payments_initialize (Some "65f0c0ffee65f0c0ffee0002") None
    payingWorld hexStore
    = (Some orderNotFound, hexStore) /\
  exists o,
    post_api_payments_initialize (Some "65f0c0ffee65f0c0ffee0001") None
      emptyPayloadWorld hexStore
      = (Some (initFailure TypeError), mkStore [hexCustomer] [o]) /\
    ord_paymentReference o
      = Some "order_65f0c0ffee65f0c0ffee0001_1700000123456".
Proof.
  assert (Hlen : forall x, ~ twelveBytes (Some x) \/ String.length x = 12%nat).
  { intros x. destruct (Nat.eq_dec (String.length x) 12) as [E | E];
      [right; exact E | left].
    intros (y & Hy & Hl). injection Hy as <-. contradiction. }
  split; [| split].
  - destruct (Hlen "nope") as [H | H]; [| discriminate H].
    apply (initialize_failure_effects (Some "nope") None payingWorld
             hexStore H). reflexivity.
  - destruct (Hlen "65f0c0ffee65f0c0ffee0002") as [H | H]; [| discriminate H].
    apply (initialize_failure_effects (Some "65f0c0ffee65f0c0ffee0002") None
             payingWorld hexStore H); [reflexivity | reflexivity |].
    intros o [<- | []] (x & Hx & Hc). injection Hx as <-.
    vm_compute in Hc. discriminate Hc.
  - destruct (Hlen "65f0c0ffee65f0c0ffee0001") as [H | H]; [| discriminate H].
    destruct (initialize_failure_effects (Some "65f0c0ffee65f0c0ffee0001")
                None emptyPayloadWorld hexStore H) as (_ & _ & Hfound & _).
    assert (Hden : denotes (Some "65f0c0ffee65f0c0ffee0001") (ord_id hexOrder))
      by (eexists; split; reflexivity).
    assert (Huo : forall o', In o' (orders hexStore) ->
                    ord_id o' = ord_id hexOrder -> o' = hexOrder)
      by (intros o' [<- | []] _; reflexivity).
    assert (Huc : forall c', In c' (customers hexStore) ->
                    cust_id c' = ord_customer hexOrder -> c' = hexCustomer)
      by (intros c' [<- | []] _; reflexivity).
    destruct (Hfound hexOrder hexCustomer eq_refl (or_introl eq_refl) Hden Huo
                (or_introl eq_refl) eq_refl Huc) as [_ Hempty].
    destruct (Hempty eq_refl eq_refl) as [Hrun _].
    eexists. split; [exact Hrun | reflexivity].
Defined.

(** X17.  None of the three payment handlers adds or removes a customer or an
    order, and, the ids of the stored orders being unique, none changes
    the [_id], customer, order code, type, items, total amount or
    [createdAt] of any order; ids and order codes stay unique. *)
Theorem payment_handlers_frame
  (crypto : option (string -> string -> string))
  (stringify : WebhookEvent -> string)
  (w : World) (s : Store) :
  uniqueOrderIds s ->
  let kept s' :=
    customers s' = customers s /\
    Forall2 sameOrderCore (orders s) (orders s') /\
    map ord_id (orders s') = map ord_id (orders s) /\
    map ord_orderCode (orders s') = map ord_orderCode (orders s) in
  (forall orderId email,
     kept (snd (post_api_payments_initialize orderId email w s))) /\
  (forall reference, kept (snd (post_api_payments_verify reference w s))) /\
  (forall signature event,
     kept (snd (post_api_webhooks_paystack crypto stringify signature event
                  w s))).
Proof.
  intros Hnd kept.
  assert (Hsame : kept s).
  { unfold kept. repeat split.
    induction (orders s); constructor; [apply sameOrderCore_refl | assumption]. }
  assert (Hwrite : forall o o', In o (orders s) -> sameOrderCore o o' ->
            kept (mkStore (customers s) (replaceOrder o' (orders s)))).
  { intros o o' Hin Hcore.
    destruct (replaceOrder_core (orders s) o o' Hnd Hin Hcore) as [Hf _].
    unfold kept. cbn [customers orders].
    split; [reflexivity |]. split; [exact Hf |].
    apply sameOrderCore_maps. exact Hf. }
  split; [| split].
  - intros orderId email. rewrite post_api_payments_initialize_run.
    destruct (castFails orderId); [exact Hsame |].
    destruct (dbRejects w 0); [exact Hsame |].
    destruct (findById orderId s) as [o |] eqn:Ef; [| exact Hsame].
    apply findById_In in Ef. destruct Ef as [Hin _].
    destruct (lookupCustomer s (ord_customer o)) as [c |]; [| exact Hsame].
    destruct (paystackInitialize w _) as [response |]; [| exact Hsame].
    destruct (dbRejects w 1); [exact Hsame |].
    destruct response;
      exact (Hwrite o _ Hin (sameOrderCore_set_paymentReference _ o)).
  - intros reference. rewrite post_api_payments_verify_run.
    destruct (paystackVerify w reference) as [[pd |] |]; try exact Hsame.
    destruct (JS.strictEq _ _); [| exact Hsame].
    destruct (dbRejects w 0); [exact Hsame |].
    destruct (findByPaymentReference reference s) as [o |] eqn:Ef;
      [| exact Hsame].
    apply findByPaymentReference_In in Ef. destruct Ef as [Hin _].
    destruct (dbRejects w 1); [exact Hsame |].
    exact (Hwrite o _ Hin (sameOrderCore_markPaid _ o)).
  - intros signature event. rewrite post_api_webhooks_paystack_run.
    destruct crypto as [hmac |]; [| exact Hsame].
    destruct (PAYSTACK_SECRET_KEY w) as [key |]; [| exact Hsame].
    destruct (JS.strictEq (Some _) signature); [| exact Hsame].
    destruct (JS.strictEq (ev_event event) _); [| exact Hsame].
    destruct (ev_data event) as [d |]; [| exact Hsame].
    destruct (dbRejects w 0); [exact Hsame |].
    destruct (findByPaymentReference (wd_reference d) s) as [o |] eqn:Ef;
      [| exact Hsame].
    apply findByPaymentReference_In in Ef. destruct Ef as [Hin _].
    destruct (dbRejects w 1); [exact Hsame |].
    exact (Hwrite o _ Hin (sameOrderCore_markPaid _ o)).
Qed.

Lemma payment_handlers_frame_witness :
  map ord_orderCode
    (orders (snd (post_api_payments_verify (Some "order_o1_1700000000001")
                    payingWorld awaitingStore)))
  = ["PH000000ABCD"].
Proof.
  assert (Hnd : uniqueOrderIds awaitingStore).
  { unfold uniqueOrderIds. cbn. constructor; [intros [] | constructor]. }
  destruct (payment_handlers_frame serverCrypto sampleStringify payingWorld
              awaitingStore Hnd) as (_ & Hverify & _).
  destruct (Hverify (Some "order_o1_1700000000001")) as (_ & _ & _ & Hc).
  exact Hc.
Defined.

(* ------------------------------------------------------------------ *)
(** ** The answers of POST /api/orders/verify *)

Lemma truthy_true (x : option string) :
  JS.truthy x = true -> exists v, x = Some v /\ JS.truthy (Some v) = true.
Proof.
  destruct x as [[| c r] |]; try discriminate. intros _. eauto.
Qed.

(** X12.  POST /api/orders/verify always answers, with 200, 400, 403, 404 or
    500: with 400 exactly when the email is absent or empty, whatever else
    the request holds and whether or not the database is up; with 500
    only when a database operation rejects or the order found refers to a
    customer that is not stored. *)
Theorem orders_verify_statuses (email orderCode : option string)
  (w : World) (s : Store) :
  exists r,
    fst (post_api_orders_verify email orderCode w s) = Some r /\
    (status r = 400%nat <-> JS.truthy email = false) /\
    (status r = 200%nat \/ status r = 400%nat \/ status r = 403%nat \/
     status r = 404%nat \/ status r = 500%nat) /\
    (status r = 500%nat ->
     dbRejects w 0 = true \/ dbRejects w 1 = true \/
     exists o, findByOrderCode orderCode s = Some o /\
               lookupCustomer s (ord_customer o) = None).
Proof.
  destruct (JS.truthy email) eqn:He.
  - destruct (truthy_true email He) as (e & -> & He').
    destruct (JS.truthy orderCode) eqn:Hc.
    + destruct (truthy_true orderCode Hc) as (c & -> & Hc').
      rewrite post_api_orders_verify_code by assumption.
      destruct (dbRejects w 0) eqn:E0.
      { eexists. split; [reflexivity |]. cbn.
        repeat split; auto 6; intros; discriminate. }
      destruct (findByOrderCode (Some c) s) as [o |] eqn:Ef.
      2: { eexists. split; [reflexivity |]. cbn.
           repeat split; auto 6; intros; discriminate. }
      destruct (lookupCustomer s (ord_customer o)) as [cu |] eqn:El.
      2: { eexists. split; [reflexivity |]. cbn.
           repeat split; auto 6; try (intros; discriminate).
           intros _. right. right. exists o. split; [reflexivity | exact El]. }
      destruct (String.eqb _ _);
        (eexists; split; [reflexivity |]; cbn;
         repeat split; auto 6; intros; discriminate).
    + rewrite post_api_orders_verify_email by assumption.
      destruct (dbRejects w 0) eqn:E0.
      { eexists. split; [reflexivity |]. cbn.
        repeat split; auto 6; intros; discriminate. }
      destruct (findByEmail _ s) as [cu |].
      2: { eexists. split; [reflexivity |]. cbn.
           repeat split; auto 6; intros; discriminate. }
      destruct (dbRejects w 1) eqn:E1;
        (eexists; split; [reflexivity |]; cbn;
         repeat split; auto 6; intros; discriminate).
  - assert (Hrun : post_api_orders_verify email orderCode w s
                   = (Some (mkResponse 400 (BError "Email address is required")),
                      s)).
    { unfold post_api_orders_verify, tryCatch, verifyOrder.
      destruct email as [[| a e] |]; try discriminate He; reflexivity. }
    rewrite Hrun. eexists. split; [reflexivity |]. cbn.
    repeat split; auto 6; intros; discriminate.
Qed.
